(** * esp_littlefs: the flash proxy task (src/littlefs_proxy_api.c)

    A shallow embedding of the proxy that maps the littlefs block-device
    callbacks (read / prog / erase / sync) onto esp_partition through a
    dedicated task, and the properties of its request slot, scratch buffer
    and hand-off.

    Conventions.
    - Unsigned C quantities (lfs_block_t, lfs_off_t, lfs_size_t, size_t:
      all 32 bits wide on the ESP32 targets) are [N]; the two arithmetic
      operations of the file are wrapped explicitly with [wrap32].
    - Signed status codes (int, esp_err_t) are [Z].
    - Pointers and RTOS handles are [N] addresses, [NULL] being 0.  The
      scratch buffer lives in a heap of blocks ([gmap N (list byte)]) so that
      [current_flash_op.buffer] and [flash_proxy_buf] alias the same
      storage.
    - The collaborators the file calls but does not define (esp_partition,
      the capability allocator, FreeRTOS object creation) are a record of
      functions over an abstract world [W].
    - A call that dereferences an unusable pointer has no result: [Crash]. *)

From Stdlib Require Import ZArith NArith Lia.
From stdpp Require Import base option list gmap.

Local Open Scope N_scope.

(** ** Constants of the headers the file includes *)

(** lfs.h, [enum lfs_error]. *)
Definition LFS_ERR_IO : Z := (-5)%Z.

(** esp_err.h. *)
Definition ESP_OK : Z := 0%Z.
Definition ESP_ERR_INVALID_ARG : Z := 258%Z.

(** esp_heap_caps.h. *)
Definition MALLOC_CAP_8BIT : N := N.shiftl 1 2.
Definition MALLOC_CAP_INTERNAL : N := N.shiftl 1 11.

(** Width of lfs_block_t, lfs_off_t, lfs_size_t and size_t. *)
Definition word_bits : N := 32.
Definition wrap32 (n : N) : N := n mod 2 ^ word_bits.

Abbreviation ptr := N.
Definition NULL : ptr := 0.

Abbreviation byte := Byte.byte.

(** ** Data model *)

(** The type of operation that is to be performed by the flash proxy task. *)
Inductive flash_op_type_t :=
| FLASH_OP_NONE
| FLASH_OP_READ
| FLASH_OP_WRITE
| FLASH_OP_ERASE
| FLASH_OP_INVALID.

(** The numeric value of each enumerator; [current_flash_op = {0}] starts as
    the kind of value 0. *)
Definition flash_op_type_value (t : flash_op_type_t) : N :=
  match t with
  | FLASH_OP_NONE => 0
  | FLASH_OP_READ => 1
  | FLASH_OP_WRITE => 2
  | FLASH_OP_ERASE => 3
  | FLASH_OP_INVALID => 4
  end.

(** [flash_op_t]; the fields carry an [op_] prefix ([size] and [type] are
    taken). *)
Record flash_op_t := {
  op_type : flash_op_type_t;
  op_partition : ptr;
  op_part_off : N;
  op_buffer : ptr;
  op_size : N
}.

(** The part of [esp_littlefs_t] and of [struct lfs_config] the proxy
    reads. *)
Record esp_littlefs_t := { partition : ptr }.
Record lfs_config := { context : esp_littlefs_t; block_size : N }.

(** What the collaborators and the RTOS observe, oldest first. *)
Inductive event :=
| EvSemaphoreCreate (sem : ptr)
| EvTaskCreate (stack_depth priority : N) (handle : ptr)
| EvMalloc (size caps : N) (p : ptr)
| EvRealloc (old : ptr) (size caps : N) (p : ptr)
| EvNotifyGive (task : ptr)
| EvNotifyTake
| EvSemaphoreGive (sem : ptr)
| EvSemaphoreTake (sem : ptr)
| EvPartitionRead (part : ptr) (off : N) (dst : ptr) (size : N) (err : Z)
| EvPartitionWrite (part : ptr) (off : N) (src : ptr) (size : N) (err : Z)
| EvPartitionErase (part : ptr) (off : N) (size : N) (err : Z).

(** The calls that reach the block device. *)
Definition is_device_call (e : event) : bool :=
  match e with
  | EvPartitionRead _ _ _ _ _
  | EvPartitionWrite _ _ _ _ _
  | EvPartitionErase _ _ _ _ => true
  | _ => false
  end.

Definition device_calls (t : list event) : list event :=
  filter (fun e => is_device_call e = true) t.

(** The RTOS objects that came into being: a creation that returned NULL
    made none. *)
Definition is_task_create (e : event) : bool :=
  match e with EvTaskCreate _ _ h => negb (h =? NULL) | _ => false end.

Definition is_semaphore_create (e : event) : bool :=
  match e with EvSemaphoreCreate sem => negb (sem =? NULL) | _ => false end.

Definition tasks_created (t : list event) : nat :=
  length (filter (fun e => is_task_create e = true) t).

Definition semaphores_created (t : list event) : nat :=
  length (filter (fun e => is_semaphore_create e = true) t).

(** The external functions, over a world [W] they may read and change.
    - the three esp_partition calls return their esp_err_t; a read also
      returns the bytes it stored at [dst], a write is handed the bytes
      readable at [src];
    - the allocator returns a pointer (NULL on failure) and the unspecified
      bytes found in fresh storage;
    - xSemaphoreCreateBinary returns a handle or NULL; xTaskCreate returns the
      handle it wrote, NULL standing for a failed creation that left the
      handle variable untouched. *)
Record Collaborators (W : Type) := {
  esp_partition_read : ptr -> N -> ptr -> N -> W -> Z * list byte * W;
  esp_partition_write : ptr -> N -> list byte -> N -> W -> Z * W;
  esp_partition_erase_range : ptr -> N -> N -> W -> Z * W;
  heap_caps_malloc : N -> N -> W -> ptr * list byte * W;
  heap_caps_realloc : ptr -> N -> N -> W -> ptr * list byte * W;
  xSemaphoreCreateBinary : W -> ptr * W;
  xTaskCreate : N -> N -> W -> ptr * W
}.

Arguments esp_partition_read {W} _ _ _ _ _ _.
Arguments esp_partition_write {W} _ _ _ _ _ _.
Arguments esp_partition_erase_range {W} _ _ _ _ _.
Arguments heap_caps_malloc {W} _ _ _ _.
Arguments heap_caps_realloc {W} _ _ _ _ _.
Arguments xSemaphoreCreateBinary {W} _ _.
Arguments xTaskCreate {W} _ _ _ _.

(** The file's static variables, the heap, the world and the trace. *)
Record state (W : Type) := {
  operation_done_sem : ptr;
  flash_proxy_task_handle : ptr;
  current_flash_op : flash_op_t;
  flash_op_result : Z;
  flash_proxy_buf : ptr;
  flash_proxy_buf_size : N;
  heap : gmap N (list byte);
  world : W;
  trace : list event
}.

Arguments operation_done_sem {W} _.
Arguments flash_proxy_task_handle {W} _.
Arguments current_flash_op {W} _.
Arguments flash_op_result {W} _.
Arguments flash_proxy_buf {W} _.
Arguments flash_proxy_buf_size {W} _.
Arguments heap {W} _.
Arguments world {W} _.
Arguments trace {W} _.

(** The result of running a piece of the program. *)
Inductive outcome (W A : Type) :=
| Done (a : A) (st : state W)
| Crash.

Arguments Done {W A} _ _.
Arguments Crash {W A}.

(** ** The program *)

Section Proxy.
Context {W : Type} (E : Collaborators W).

(** *** Field updates *)

Definition set_operation_done_sem (v : ptr) (st : state W) : state W :=
  {| operation_done_sem := v;
     flash_proxy_task_handle := flash_proxy_task_handle st;
     current_flash_op := current_flash_op st;
     flash_op_result := flash_op_result st;
     flash_proxy_buf := flash_proxy_buf st;
     flash_proxy_buf_size := flash_proxy_buf_size st;
     heap := heap st; world := world st; trace := trace st |}.

Definition set_flash_proxy_task_handle (v : ptr) (st : state W) : state W :=
  {| operation_done_sem := operation_done_sem st;
     flash_proxy_task_handle := v;
     current_flash_op := current_flash_op st;
     flash_op_result := flash_op_result st;
     flash_proxy_buf := flash_proxy_buf st;
     flash_proxy_buf_size := flash_proxy_buf_size st;
     heap := heap st; world := world st; trace := trace st |}.

Definition set_current_flash_op (v : flash_op_t) (st : state W) : state W :=
  {| operation_done_sem := operation_done_sem st;
     flash_proxy_task_handle := flash_proxy_task_handle st;
     current_flash_op := v;
     flash_op_result := flash_op_result st;
     flash_proxy_buf := flash_proxy_buf st;
     flash_proxy_buf_size := flash_proxy_buf_size st;
     heap := heap st; world := world st; trace := trace st |}.

Definition set_flash_op_result (v : Z) (st : state W) : state W :=
  {| operation_done_sem := operation_done_sem st;
     flash_proxy_task_handle := flash_proxy_task_handle st;
     current_flash_op := current_flash_op st;
     flash_op_result := v;
     flash_proxy_buf := flash_proxy_buf st;
     flash_proxy_buf_size := flash_proxy_buf_size st;
     heap := heap st; world := world st; trace := trace st |}.

Definition set_flash_proxy_buf (v : ptr) (st : state W) : state W :=
  {| operation_done_sem := operation_done_sem st;
     flash_proxy_task_handle := flash_proxy_task_handle st;
     current_flash_op := current_flash_op st;
     flash_op_result := flash_op_result st;
     flash_proxy_buf := v;
     flash_proxy_buf_size := flash_proxy_buf_size st;
     heap := heap st; world := world st; trace := trace st |}.

Definition set_flash_proxy_buf_size (v : N) (st : state W) : state W :=
  {| operation_done_sem := operation_done_sem st;
     flash_proxy_task_handle := flash_proxy_task_handle st;
     current_flash_op := current_flash_op st;
     flash_op_result := flash_op_result st;
     flash_proxy_buf := flash_proxy_buf st;
     flash_proxy_buf_size := v;
     heap := heap st; world := world st; trace := trace st |}.

Definition set_heap (v : gmap N (list byte)) (st : state W) : state W :=
  {| operation_done_sem := operation_done_sem st;
     flash_proxy_task_handle := flash_proxy_task_handle st;
     current_flash_op := current_flash_op st;
     flash_op_result := flash_op_result st;
     flash_proxy_buf := flash_proxy_buf st;
     flash_proxy_buf_size := flash_proxy_buf_size st;
     heap := v; world := world st; trace := trace st |}.

Definition set_world (v : W) (st : state W) : state W :=
  {| operation_done_sem := operation_done_sem st;
     flash_proxy_task_handle := flash_proxy_task_handle st;
     current_flash_op := current_flash_op st;
     flash_op_result := flash_op_result st;
     flash_proxy_buf := flash_proxy_buf st;
     flash_proxy_buf_size := flash_proxy_buf_size st;
     heap := heap st; world := v; trace := trace st |}.

Definition add_event (e : event) (st : state W) : state W :=
  {| operation_done_sem := operation_done_sem st;
     flash_proxy_task_handle := flash_proxy_task_handle st;
     current_flash_op := current_flash_op st;
     flash_op_result := flash_op_result st;
     flash_proxy_buf := flash_proxy_buf st;
     flash_proxy_buf_size := flash_proxy_buf_size st;
     heap := heap st; world := world st; trace := trace st ++ [e] |}.

(** Assignments to the fields of [current_flash_op]. *)
Definition set_op_type (v : flash_op_type_t) (st : state W) : state W :=
  let op := current_flash_op st in
  set_current_flash_op
    {| op_type := v; op_partition := op_partition op;
       op_part_off := op_part_off op; op_buffer := op_buffer op;
       op_size := op_size op |} st.

Definition set_op_partition (v : ptr) (st : state W) : state W :=
  let op := current_flash_op st in
  set_current_flash_op
    {| op_type := op_type op; op_partition := v;
       op_part_off := op_part_off op; op_buffer := op_buffer op;
       op_size := op_size op |} st.

Definition set_op_part_off (v : N) (st : state W) : state W :=
  let op := current_flash_op st in
  set_current_flash_op
    {| op_type := op_type op; op_partition := op_partition op;
       op_part_off := v; op_buffer := op_buffer op;
       op_size := op_size op |} st.

Definition set_op_buffer (v : ptr) (st : state W) : state W :=
  let op := current_flash_op st in
  set_current_flash_op
    {| op_type := op_type op; op_partition := op_partition op;
       op_part_off := op_part_off op; op_buffer := v;
       op_size := op_size op |} st.

Definition set_op_size (v : N) (st : state W) : state W :=
  let op := current_flash_op st in
  set_current_flash_op
    {| op_type := op_type op; op_partition := op_partition op;
       op_part_off := op_part_off op; op_buffer := op_buffer op;
       op_size := v |} st.

(** *** A state monad with crashes *)

Definition M (A : Type) : Type := state W -> outcome W A.

Definition ret {A} (a : A) : M A := fun st => Done a st.

Definition bind {A B} (m : M A) (k : A -> M B) : M B :=
  fun st => match m st with
            | Done a st' => k a st'
            | Crash => Crash
            end.

Definition crash {A} : M A := fun _ => Crash.
Definition get {A} (f : state W -> A) : M A := fun st => Done (f st) st.
Definition modify (f : state W -> state W) : M unit := fun st => Done tt (f st).
Definition log (e : event) : M unit := modify (add_event e).

Declare Scope proxy_scope.
Delimit Scope proxy_scope with proxy.
Notation "x <- m ;; k" := (bind m (fun x => k))
  (at level 100, m at next level, right associativity) : proxy_scope.
Notation "m ;; k" := (bind m (fun _ => k))
  (at level 100, right associativity) : proxy_scope.
Local Open Scope proxy_scope.

(** *** Memory *)

(** The bytes a driver can read at [p]. *)
Definition load_bytes (h : gmap N (list byte)) (p : ptr) (n : N) : list byte :=
  match h !! p with
  | Some blk => take (N.to_nat n) blk
  | None => []
  end.

(** The bytes a driver stored at [p]; nothing is stored where there is no
    room for them. *)
Definition store_bytes (h : gmap N (list byte)) (p : ptr) (data : list byte)
  : gmap N (list byte) :=
  match h !! p with
  | Some blk =>
      if (length data <=? length blk)%nat
      then <[p := data ++ drop (length data) blk]> h
      else h
  | None => h
  end.

(** [memcpy(flash_proxy_buf, buffer, size)].  A copy of no bytes touches no
    memory; any other copy through NULL, or past the end of the block or of
    the caller's buffer, is a crash. *)
Definition memcpy_to_scratch (buffer : list byte) (size : N) : M unit :=
  fun st =>
    if size =? 0 then Done tt st else
    let dst := flash_proxy_buf st in
    if dst =? NULL then Crash else
    match heap st !! dst with
    | Some blk =>
        if (N.to_nat size <=? length blk)%nat && (N.to_nat size <=? length buffer)%nat
        then Done tt (set_heap (<[dst := take (N.to_nat size) buffer
                                         ++ drop (N.to_nat size) blk]> (heap st)) st)
        else Crash
    | None => Crash
    end.

(** [memcpy(buffer, flash_proxy_buf, size)]: the caller's buffer
    afterwards. *)
Definition memcpy_from_scratch (buffer : list byte) (size : N) : M (list byte) :=
  fun st =>
    if size =? 0 then Done buffer st else
    let src := flash_proxy_buf st in
    if src =? NULL then Crash else
    match heap st !! src with
    | Some blk =>
        if (N.to_nat size <=? length blk)%nat && (N.to_nat size <=? length buffer)%nat
        then Done (take (N.to_nat size) blk ++ drop (N.to_nat size) buffer) st
        else Crash
    | None => Crash
    end.

(** *** Calls into the collaborators *)

Definition do_xSemaphoreCreateBinary : M ptr :=
  fun st =>
    let '(sem, w) := xSemaphoreCreateBinary E (world st) in
    Done sem (add_event (EvSemaphoreCreate sem) (set_world w st)).

(** [xTaskCreate(..., &flash_proxy_task_handle)]. *)
Definition do_xTaskCreate (stack_depth priority : N) : M unit :=
  fun st =>
    let '(h, w) := xTaskCreate E stack_depth priority (world st) in
    let st1 := add_event (EvTaskCreate stack_depth priority h) (set_world w st) in
    Done tt (if h =? NULL then st1 else set_flash_proxy_task_handle h st1).

Definition do_heap_caps_malloc (size caps : N) : M ptr :=
  fun st =>
    let '(p, junk, w) := heap_caps_malloc E size caps (world st) in
    let h := if p =? NULL then heap st
             else <[p := resize (N.to_nat size) Byte.x00 junk]> (heap st) in
    Done p (add_event (EvMalloc size caps p) (set_heap h (set_world w st))).

Definition do_heap_caps_realloc (old : ptr) (size caps : N) : M ptr :=
  fun st =>
    let '(p, junk, w) := heap_caps_realloc E old size caps (world st) in
    let kept := default [] (heap st !! old) in
    let h := if p =? NULL then heap st
             else <[p := resize (N.to_nat size) Byte.x00 (kept ++ junk)]>
                    (delete old (heap st)) in
    Done p (add_event (EvRealloc old size caps p) (set_heap h (set_world w st))).

Definition do_esp_partition_read (part : ptr) (off : N) (dst : ptr) (size : N) : M Z :=
  fun st =>
    let '(err, data, w) := esp_partition_read E part off dst size (world st) in
    let h := store_bytes (heap st) dst (take (N.to_nat size) data) in
    Done err (add_event (EvPartitionRead part off dst size err)
                (set_heap h (set_world w st))).

Definition do_esp_partition_write (part : ptr) (off : N) (src : ptr) (size : N) : M Z :=
  fun st =>
    let '(err, w) :=
      esp_partition_write E part off (load_bytes (heap st) src size) size (world st) in
    Done err (add_event (EvPartitionWrite part off src size err) (set_world w st)).

Definition do_esp_partition_erase_range (part : ptr) (off size : N) : M Z :=
  fun st =>
    let '(err, w) := esp_partition_erase_range E part off size (world st) in
    Done err (add_event (EvPartitionErase part off size err) (set_world w st)).

(** [xSemaphoreGive(operation_done_sem)]; giving a NULL semaphore trips the
    kernel's assertion. *)
Definition do_xSemaphoreGive : M unit :=
  sem <- get operation_done_sem ;;
  if sem =? NULL then crash else log (EvSemaphoreGive sem).

(** *** start_flash_proxy_task *)

Definition start_flash_proxy_task : M unit :=
  h <- get flash_proxy_task_handle ;;
  if h =? NULL then
    sem <- do_xSemaphoreCreateBinary ;;
    modify (set_operation_done_sem sem) ;;
    do_xTaskCreate 4096 5
  else ret tt.

(** *** flash_proxy_task: one turn of the [while (1)] loop, from the return
    of [ulTaskNotifyTake] to [xSemaphoreGive]. *)

Definition flash_proxy_task_dispatch : M Z :=
  op <- get current_flash_op ;;
  match op_type op with
  | FLASH_OP_READ =>
      do_esp_partition_read (op_partition op) (op_part_off op)
                            (op_buffer op) (op_size op)
  | FLASH_OP_WRITE =>
      do_esp_partition_write (op_partition op) (op_part_off op)
                             (op_buffer op) (op_size op)
  | FLASH_OP_ERASE =>
      do_esp_partition_erase_range (op_partition op) (op_part_off op) (op_size op)
  | _ => ret ESP_ERR_INVALID_ARG
  end.

Definition flash_proxy_task_iter : M unit :=
  log EvNotifyTake ;;
  modify (set_flash_op_result 0%Z) ;;
  err <- flash_proxy_task_dispatch ;;
  (if (err =? 0)%Z then ret tt else modify (set_flash_op_result LFS_ERR_IO)) ;;
  do_xSemaphoreGive.

(** *** The hand-off as one caller sees it

    [xTaskNotifyGive] makes the proxy task ready; the caller then blocks in
    [xSemaphoreTake(operation_done_sem, portMAX_DELAY)] until the task has
    run its turn and given the semaphore.  With one caller at a time the
    two sides strictly alternate, so the task's turn runs inside the
    caller's wait. *)

Definition do_xTaskNotifyGive : M unit :=
  h <- get flash_proxy_task_handle ;;
  log (EvNotifyGive h).

Definition do_xSemaphoreTake : M unit :=
  flash_proxy_task_iter ;;
  sem <- get operation_done_sem ;;
  log (EvSemaphoreTake sem).

(** *** ensure_flash_proxy_buf_size *)

Definition scratch_caps : N := N.lor MALLOC_CAP_INTERNAL MALLOC_CAP_8BIT.

Definition ensure_flash_proxy_buf_size (size : N) : M unit :=
  buf <- get flash_proxy_buf ;;
  cap <- get flash_proxy_buf_size ;;
  if buf =? NULL then
    p <- do_heap_caps_malloc size scratch_caps ;;
    modify (set_flash_proxy_buf p) ;;
    modify (set_flash_proxy_buf_size size)
  else if cap <? size then
    p <- do_heap_caps_realloc buf size scratch_caps ;;
    modify (set_flash_proxy_buf p) ;;
    modify (set_flash_proxy_buf_size size)
  else ret tt.

(** *** The entry points *)

Definition littlefs_api_read (c : lfs_config) (block off : N)
           (buffer : list byte) (size : N) : M (Z * list byte) :=
  let efs := context c in
  let part_off := wrap32 (wrap32 (block * block_size c) + off) in
  h <- get flash_proxy_task_handle ;;
  if h =? NULL then ret (LFS_ERR_IO, buffer) else
  ensure_flash_proxy_buf_size size ;;
  modify (set_op_type FLASH_OP_READ) ;;
  modify (set_op_partition (partition efs)) ;;
  modify (set_op_part_off part_off) ;;
  buf <- get flash_proxy_buf ;;
  modify (set_op_buffer buf) ;;
  modify (set_op_size size) ;;
  do_xTaskNotifyGive ;;
  do_xSemaphoreTake ;;
  buffer' <- memcpy_from_scratch buffer size ;;
  ret (0%Z, buffer').

Definition littlefs_api_prog (c : lfs_config) (block off : N)
           (buffer : list byte) (size : N) : M Z :=
  let efs := context c in
  let part_off := wrap32 (wrap32 (block * block_size c) + off) in
  h <- get flash_proxy_task_handle ;;
  if h =? NULL then ret LFS_ERR_IO else
  ensure_flash_proxy_buf_size size ;;
  memcpy_to_scratch buffer size ;;
  modify (set_op_type FLASH_OP_WRITE) ;;
  modify (set_op_partition (partition efs)) ;;
  modify (set_op_part_off part_off) ;;
  buf <- get flash_proxy_buf ;;
  modify (set_op_buffer buf) ;;
  modify (set_op_size size) ;;
  do_xTaskNotifyGive ;;
  do_xSemaphoreTake ;;
  ret 0%Z.

Definition littlefs_api_erase (c : lfs_config) (block : N) : M Z :=
  let efs := context c in
  let part_off := wrap32 (block * block_size c) in
  h <- get flash_proxy_task_handle ;;
  if h =? NULL then ret LFS_ERR_IO else
  modify (set_op_type FLASH_OP_ERASE) ;;
  modify (set_op_partition (partition efs)) ;;
  modify (set_op_part_off part_off) ;;
  modify (set_op_size (block_size c)) ;;
  modify (set_op_buffer NULL) ;;
  do_xTaskNotifyGive ;;
  do_xSemaphoreTake ;;
  ret 0%Z.

Definition littlefs_api_sync (c : lfs_config) : M Z := ret 0%Z.

End Proxy.

Arguments M W A : clear implicits.

(** ** Running sequences of calls *)

(** The state before [app_main]: every static variable zero-initialised. *)
Definition initial_state {W : Type} (w : W) : state W :=
  {| operation_done_sem := NULL;
     flash_proxy_task_handle := NULL;
     current_flash_op :=
       {| op_type := FLASH_OP_NONE; op_partition := NULL; op_part_off := 0;
          op_buffer := NULL; op_size := 0 |};
     flash_op_result := 0%Z;
     flash_proxy_buf := NULL;
     flash_proxy_buf_size := 0;
     heap := ∅;
     world := w;
     trace := [] |}.

(** One call of the public interface, by a single caller. *)
Inductive call :=
| CallStart
| CallRead (c : lfs_config) (block off : N) (buffer : list byte) (size : N)
| CallProg (c : lfs_config) (block off : N) (buffer : list byte) (size : N)
| CallErase (c : lfs_config) (block : N)
| CallSync (c : lfs_config).

Definition discard {W A} (m : M W A) : M W unit :=
  bind m (fun _ => ret tt).

Definition run_call {W} (E : Collaborators W) (k : call) : M W unit :=
  match k with
  | CallStart => start_flash_proxy_task E
  | CallRead c block off buffer size =>
      discard (littlefs_api_read E c block off buffer size)
  | CallProg c block off buffer size =>
      discard (littlefs_api_prog E c block off buffer size)
  | CallErase c block => discard (littlefs_api_erase E c block)
  | CallSync c => discard (littlefs_api_sync c)
  end.

Fixpoint run_calls {W} (E : Collaborators W) (ks : list call) : M W unit :=
  match ks with
  | [] => ret tt
  | k :: ks' => bind (run_call E k) (fun _ => run_calls E ks')
  end.

(** The states the program reaches from start-up through calls that
    return. *)
Definition reachable {W} (E : Collaborators W) (st : state W) : Prop :=
  exists w ks, run_calls E ks (initial_state w) = Done tt st.

(** The size a call asks of the scratch buffer. *)
Definition requested_size (k : call) : N :=
  match k with
  | CallRead _ _ _ _ size | CallProg _ _ _ _ size => size
  | _ => 0
  end.

(** The start-up hook invoked [n] times in a row. *)
Fixpoint start_times {W} (E : Collaborators W) (n : nat) : M W unit :=
  match n with
  | O => ret tt
  | S n' => bind (start_flash_proxy_task E) (fun _ => start_times E n')
  end.

(** The executor exists: its task was created and its completion semaphore
    initialised. *)
Definition started {W} (st : state W) : Prop :=
  flash_proxy_task_handle st <> NULL /\ operation_done_sem st <> NULL.

(** ** Assumptions on the collaborators *)

(** A block device that stores bytes: a write succeeds and a read of the
    same range then returns what was written. *)
Definition stores_faithfully {W} (E : Collaborators W) : Prop :=
  forall part off (data : list byte) w,
    let n := N.of_nat (length data) in
    exists w',
      esp_partition_write E part off data n w = (ESP_OK, w') /\
      forall dst, dst <> NULL ->
        exists w'', esp_partition_read E part off dst n w' = (ESP_OK, data, w'').

(** The allocator can serve the scratch buffer's request for [size] bytes in
    world [w], by a first allocation or by growing block [old]. *)
Definition allocator_serves {W} (E : Collaborators W) (size : N) (w : W) : Prop :=
  (heap_caps_malloc E size scratch_caps w).1.1 <> NULL /\
  forall old, (heap_caps_realloc E old size scratch_caps w).1.1 <> NULL.

(** The RTOS can create the semaphore and the proxy task when the start-up
    hook runs in world [w]. *)
Definition rtos_can_start {W} (E : Collaborators W) (w : W) : Prop :=
  (xSemaphoreCreateBinary E w).1 <> NULL /\
  (xTaskCreate E 4096 5 (xSemaphoreCreateBinary E w).2).1 <> NULL.

(** ** A simulated board

    Flash as a map from offsets to bytes (0xFF where nothing was written), a
    bump allocator over [sim_heap_limit] bytes of internal RAM, and handles
    numbered from 1.  [sim_write_err] is the status every partition write
    reports. *)

Record sim_world := {
  sim_flash : gmap N byte;
  sim_brk : N;
  sim_next_handle : N
}.

Definition sim_boot : sim_world :=
  {| sim_flash := ∅; sim_brk := 0; sim_next_handle := 1 |}.

Definition sim_ram_base : N := 1073414144.

Fixpoint flash_write (off : N) (data : list byte) (f : gmap N byte) : gmap N byte :=
  match data with
  | [] => f
  | b :: bs => <[off := b]> (flash_write (off + 1) bs f)
  end.

Fixpoint flash_read (off : N) (n : nat) (f : gmap N byte) : list byte :=
  match n with
  | O => []
  | S n' => default Byte.xff (f !! off) :: flash_read (off + 1) n' f
  end.

Fixpoint flash_erase (off : N) (n : nat) (f : gmap N byte) : gmap N byte :=
  match n with
  | O => f
  | S n' => delete off (flash_erase (off + 1) n' f)
  end.

Definition sim_alloc (heap_limit size : N) (w : sim_world) : ptr * list byte * sim_world :=
  if heap_limit <? sim_brk w + size then (NULL, [], w)
  else (sim_ram_base + sim_brk w, [],
        {| sim_flash := sim_flash w; sim_brk := sim_brk w + size;
           sim_next_handle := sim_next_handle w |}).

Definition sim_handle (w : sim_world) : ptr * sim_world :=
  (sim_next_handle w,
   {| sim_flash := sim_flash w; sim_brk := sim_brk w;
      sim_next_handle := sim_next_handle w + 1 |}).

Definition sim_board (sim_write_err : Z) (sim_heap_limit : N) : Collaborators sim_world :=
  {| esp_partition_read := fun part off dst size w =>
       if dst =? NULL then (ESP_ERR_INVALID_ARG, [], w)
       else (ESP_OK, flash_read off (N.to_nat size) (sim_flash w), w);
     esp_partition_write := fun part off data size w =>
       if (sim_write_err =? 0)%Z
       then (ESP_OK,
             {| sim_flash := flash_write off data (sim_flash w);
                sim_brk := sim_brk w; sim_next_handle := sim_next_handle w |})
       else (sim_write_err, w);
     esp_partition_erase_range := fun part off size w =>
       (ESP_OK,
        {| sim_flash := flash_erase off (N.to_nat size) (sim_flash w);
           sim_brk := sim_brk w; sim_next_handle := sim_next_handle w |});
     heap_caps_malloc := fun size caps w => sim_alloc sim_heap_limit size w;
     heap_caps_realloc := fun old size caps w => sim_alloc sim_heap_limit size w;
     xSemaphoreCreateBinary := sim_handle;
     xTaskCreate := fun depth prio w => sim_handle w |}.

(** A board in working order, one whose flash writes fail with ESP_FAIL, and
    one with no internal RAM left. *)
Definition good_board : Collaborators sim_world := sim_board 0 65536.
Definition bad_flash_board : Collaborators sim_world := sim_board (-1) 65536.
Definition no_ram_board : Collaborators sim_world := sim_board 0 0.

Definition cfg4096 : lfs_config :=
  {| context := {| partition := 1061191680 |}; block_size := 4096 |}.

Definition bytes_AA : list byte := replicate 16 Byte.xaa.
Definition bytes_00 : list byte := replicate 16 Byte.x00.

(** The simulated board after [start_flash_proxy_task]. *)
Definition booted (E : Collaborators sim_world) : state sim_world :=
  match start_flash_proxy_task E (initial_state sim_boot) with
  | Done _ st => st
  | Crash => initial_state sim_boot
  end.

(** The state a sequence of calls ends in. *)
Definition after_calls {W} (E : Collaborators W) (ks : list call) (st : state W)
  : state W :=
  match run_calls E ks st with
  | Done _ st' => st'
  | Crash => st
  end.

(** The shared state an entry point may write: request slot, outcome,
    scratch pointer, recorded capacity and the heap behind it. *)
Definition same_shared_state {W} (st st' : state W) : Prop :=
  current_flash_op st' = current_flash_op st /\
  flash_op_result st' = flash_op_result st /\
  flash_proxy_buf st' = flash_proxy_buf st /\
  flash_proxy_buf_size st' = flash_proxy_buf_size st /\
  heap st' = heap st.

(** ** Reasoning about runs *)

(** Traces are compared up to re-association. *)
Ltac norm_trace :=
  repeat first [rewrite <- app_assoc | progress cbn [app]].

(** What one dispatch of the proxy task does to the heap, the world and the
    trace, and the status it ends with. *)
Definition device_step {W} (E : Collaborators W) (op : flash_op_t)
           (h : gmap N (list byte)) (w : W)
  : Z * gmap N (list byte) * W * list event :=
  match op_type op with
  | FLASH_OP_READ =>
      let r := esp_partition_read E (op_partition op) (op_part_off op)
                 (op_buffer op) (op_size op) w in
      (r.1.1, store_bytes h (op_buffer op) (take (N.to_nat (op_size op)) r.1.2), r.2,
       [EvPartitionRead (op_partition op) (op_part_off op) (op_buffer op)
          (op_size op) r.1.1])
  | FLASH_OP_WRITE =>
      let r := esp_partition_write E (op_partition op) (op_part_off op)
                 (load_bytes h (op_buffer op) (op_size op)) (op_size op) w in
      (r.1, h, r.2,
       [EvPartitionWrite (op_partition op) (op_part_off op) (op_buffer op)
          (op_size op) r.1])
  | FLASH_OP_ERASE =>
      let r := esp_partition_erase_range E (op_partition op) (op_part_off op)
                 (op_size op) w in
      (r.1, h, r.2,
       [EvPartitionErase (op_partition op) (op_part_off op) (op_size op) r.1])
  | _ => (ESP_ERR_INVALID_ARG, h, w, [])
  end.

(** The scratch buffer as the entry points see it: pointer, recorded
    capacity, and the length of the block the pointer designates. *)
Definition scratch_view {W} (st : state W) : ptr * N * option nat :=
  (flash_proxy_buf st, flash_proxy_buf_size st,
   length <$> heap st !! flash_proxy_buf st).

(** Between calls the pointer is NULL with nothing recorded, or designates a
    block of exactly the recorded capacity. *)
Definition view_ok (v : ptr * N * option nat) : Prop :=
  (v.1.1 = NULL /\ v.1.2 = 0) \/
  (v.1.1 <> NULL /\ v.2 = Some (N.to_nat v.1.2)).

Definition scratch_ok {W} (st : state W) : Prop := view_ok (scratch_view st).

(** Right after [ensure_flash_proxy_buf_size size]: a failed allocation has
    left NULL with [size] recorded. *)
Definition view_mid (size : N) (v : ptr * N * option nat) : Prop :=
  (v.1.1 = NULL /\ v.1.2 = size) \/
  (v.1.1 <> NULL /\ v.2 = Some (N.to_nat v.1.2)).

(** The state once the caller has filled the request slot and notified the
    proxy task. *)
Definition request_posted {W} (op : flash_op_t) (st : state W) : state W :=
  add_event (EvNotifyGive (flash_proxy_task_handle st))
    (set_current_flash_op op st).

Definition read_request (c : lfs_config) (block off : N) (buf : ptr) (size : N)
  : flash_op_t :=
  {| op_type := FLASH_OP_READ; op_partition := partition (context c);
     op_part_off := wrap32 (wrap32 (block * block_size c) + off);
     op_buffer := buf; op_size := size |}.

Definition write_request (c : lfs_config) (block off : N) (buf : ptr) (size : N)
  : flash_op_t :=
  {| op_type := FLASH_OP_WRITE; op_partition := partition (context c);
     op_part_off := wrap32 (wrap32 (block * block_size c) + off);
     op_buffer := buf; op_size := size |}.

Definition erase_request (c : lfs_config) (block : N) : flash_op_t :=
  {| op_type := FLASH_OP_ERASE; op_partition := partition (context c);
     op_part_off := wrap32 (block * block_size c);
     op_buffer := NULL; op_size := block_size c |}.

(** What every returning call keeps: the scratch buffer well formed, its
    recorded capacity no smaller. *)
Definition call_keeps {W} (st st' : state W) : Prop :=
  scratch_ok st' /\
  flash_proxy_buf_size st <= flash_proxy_buf_size st'.

(** ** Further notions: the hand-off as a whole, event counts, devices that
    misbehave *)

(** The state in which the caller resumes: the request [op] was posted, the
    proxy task ran its turn on it and the semaphore was taken. *)
Definition after_handoff {W} (E : Collaborators W) (op : flash_op_t)
           (st : state W) : state W :=
  let r := device_step E op (heap st) (world st) in
  {| operation_done_sem := operation_done_sem st;
     flash_proxy_task_handle := flash_proxy_task_handle st;
     current_flash_op := op;
     flash_op_result := if (r.1.1.1 =? 0)%Z then 0%Z else LFS_ERR_IO;
     flash_proxy_buf := flash_proxy_buf st;
     flash_proxy_buf_size := flash_proxy_buf_size st;
     heap := r.1.1.2;
     world := r.1.2;
     trace := trace st
                ++ [EvNotifyGive (flash_proxy_task_handle st); EvNotifyTake]
                ++ r.2
                ++ [EvSemaphoreGive (operation_done_sem st);
                    EvSemaphoreTake (operation_done_sem st)] |}.

Definition is_alloc_event (e : event) : bool :=
  match e with
  | EvMalloc _ _ _ | EvRealloc _ _ _ _ => true
  | _ => false
  end.

Definition is_rtos_create (e : event) : bool :=
  match e with
  | EvSemaphoreCreate _ | EvTaskCreate _ _ _ => true
  | _ => false
  end.

Definition is_notify_give (e : event) : bool :=
  match e with EvNotifyGive _ => true | _ => false end.
Definition is_notify_take (e : event) : bool :=
  match e with EvNotifyTake => true | _ => false end.
Definition is_semaphore_give (e : event) : bool :=
  match e with EvSemaphoreGive _ => true | _ => false end.
Definition is_semaphore_take (e : event) : bool :=
  match e with EvSemaphoreTake _ => true | _ => false end.

(** How many events of a trace satisfy [p]. *)
Definition count_events (p : event -> bool) (t : list event) : nat :=
  length (filter (fun e => p e = true) t).

(** The calls of a sequence that ask for a device operation. *)
Definition is_data_call (k : call) : bool :=
  match k with
  | CallRead _ _ _ _ _ | CallProg _ _ _ _ _ | CallErase _ _ => true
  | _ => false
  end.

Definition data_calls (ks : list call) : nat :=
  length (filter (fun k => is_data_call k = true) ks).

(** What the request slot holds between calls. *)
Definition request_slot_ok {W} (st : state W) : Prop :=
  let op := current_flash_op st in
  match op_type op with
  | FLASH_OP_NONE => device_calls (trace st) = []
  | FLASH_OP_READ | FLASH_OP_WRITE =>
      op_buffer op = flash_proxy_buf st /\ op_size op <= flash_proxy_buf_size st
  | FLASH_OP_ERASE => op_buffer op = NULL
  | FLASH_OP_INVALID => False
  end.

(** A device whose reads store as many bytes as were asked for. *)
Definition reads_fill {W} (E : Collaborators W) : Prop :=
  forall part off dst size w,
    dst <> NULL ->
    length (esp_partition_read E part off dst size w).1.2 = N.to_nat size.

(** A device whose reads store nothing. *)
Definition reads_store_nothing {W} (E : Collaborators W) : Prop :=
  forall part off dst size w,
    (esp_partition_read E part off dst size w).1.2 = [].

(** A mount with 32-byte blocks. *)
Definition cfg32 : lfs_config :=
  {| context := {| partition := 1061191680 |}; block_size := 32 |}.

(** The working board with a flash that answers every read with ESP_FAIL and
    stores nothing, and the working board on an RTOS that cannot create
    tasks. *)
Definition deaf_board : Collaborators sim_world :=
  {| esp_partition_read := fun part off dst size w => ((-1)%Z, [], w);
     esp_partition_write := esp_partition_write good_board;
     esp_partition_erase_range := esp_partition_erase_range good_board;
     heap_caps_malloc := heap_caps_malloc good_board;
     heap_caps_realloc := heap_caps_realloc good_board;
     xSemaphoreCreateBinary := xSemaphoreCreateBinary good_board;
     xTaskCreate := xTaskCreate good_board |}.

Definition no_task_board : Collaborators sim_world :=
  {| esp_partition_read := esp_partition_read good_board;
     esp_partition_write := esp_partition_write good_board;
     esp_partition_erase_range := esp_partition_erase_range good_board;
     heap_caps_malloc := heap_caps_malloc good_board;
     heap_caps_realloc := heap_caps_realloc good_board;
     xSemaphoreCreateBinary := xSemaphoreCreateBinary good_board;
     xTaskCreate := fun depth prio w => (NULL, w) |}.

(** The five counts the hand-off keeps equal: notifications given and taken,
    semaphore gives and takes, device calls. *)
Definition handoff_counts (t : list event) : nat * nat * nat * nat * nat :=
  (count_events is_notify_give t, count_events is_notify_take t,
   count_events is_semaphore_give t, count_events is_semaphore_take t,
   length (device_calls t)).

Section Facts.
Context {W : Type} (E : Collaborators W).
Implicit Types (st : state W) (c : lfs_config) (h : gmap N (list byte)).

Lemma eqb_NULL_false (p : ptr) : p <> NULL -> (p =? NULL) = false.
Proof. intros H. by apply N.eqb_neq. Qed.

Lemma bind_Done {A B} (m : M W A) (k : A -> M W B) st b st' :
  bind m k st = Done b st' ->
  exists a st1, m st = Done a st1 /\ k a st1 = Done b st'.
Proof.
  unfold bind. destruct (m st) as [a st1|]; [|discriminate]. eauto.
Qed.

(** *** The proxy task's turn *)

Lemma dispatch_eq st :
  let r := device_step E (current_flash_op st) (heap st) (world st) in
  flash_proxy_task_dispatch E st =
    Done r.1.1.1
      {| operation_done_sem := operation_done_sem st;
         flash_proxy_task_handle := flash_proxy_task_handle st;
         current_flash_op := current_flash_op st;
         flash_op_result := flash_op_result st;
         flash_proxy_buf := flash_proxy_buf st;
         flash_proxy_buf_size := flash_proxy_buf_size st;
         heap := r.1.1.2; world := r.1.2; trace := trace st ++ r.2 |}.
Proof.
  destruct st as [sem hd op res buf cap h w t]. cbn.
  unfold flash_proxy_task_dispatch, device_step, bind, get. cbn.
  destruct (op_type op); cbn.
  - by rewrite app_nil_r.
  - unfold do_esp_partition_read. cbn.
    by destruct (esp_partition_read E _ _ _ _ w) as [[e d] w'].
  - unfold do_esp_partition_write. cbn.
    by destruct (esp_partition_write E _ _ _ _ w) as [e w'].
  - unfold do_esp_partition_erase_range. cbn.
    by destruct (esp_partition_erase_range E _ _ _ w) as [e w'].
  - by rewrite app_nil_r.
Qed.

Lemma iter_eq st :
  let r := device_step E (current_flash_op st) (heap st) (world st) in
  flash_proxy_task_iter E st =
    if operation_done_sem st =? NULL then Crash else
    Done tt
      {| operation_done_sem := operation_done_sem st;
         flash_proxy_task_handle := flash_proxy_task_handle st;
         current_flash_op := current_flash_op st;
         flash_op_result := if (r.1.1.1 =? 0)%Z then 0%Z else LFS_ERR_IO;
         flash_proxy_buf := flash_proxy_buf st;
         flash_proxy_buf_size := flash_proxy_buf_size st;
         heap := r.1.1.2; world := r.1.2;
         trace := trace st ++ [EvNotifyTake] ++ r.2
                    ++ [EvSemaphoreGive (operation_done_sem st)] |}.
Proof.
  intros r. unfold flash_proxy_task_iter, log, modify, bind. cbv beta iota.
  rewrite dispatch_eq. cbn. fold r.
  unfold do_xSemaphoreGive, bind, get, crash, log, modify, ret.
  destruct (r.1.1.1 =? 0)%Z; cbn;
    (destruct (operation_done_sem st =? NULL); [reflexivity|]);
    unfold add_event, set_flash_op_result; cbn; by norm_trace.
Qed.

Lemma take_eq st :
  let r := device_step E (current_flash_op st) (heap st) (world st) in
  do_xSemaphoreTake E st =
    if operation_done_sem st =? NULL then Crash else
    Done tt
      {| operation_done_sem := operation_done_sem st;
         flash_proxy_task_handle := flash_proxy_task_handle st;
         current_flash_op := current_flash_op st;
         flash_op_result := if (r.1.1.1 =? 0)%Z then 0%Z else LFS_ERR_IO;
         flash_proxy_buf := flash_proxy_buf st;
         flash_proxy_buf_size := flash_proxy_buf_size st;
         heap := r.1.1.2; world := r.1.2;
         trace := trace st ++ [EvNotifyTake] ++ r.2
                    ++ [EvSemaphoreGive (operation_done_sem st);
                        EvSemaphoreTake (operation_done_sem st)] |}.
Proof.
  intros r. unfold do_xSemaphoreTake, bind. rewrite iter_eq. fold r.
  destruct (operation_done_sem st =? NULL); [reflexivity|].
  unfold get, log, modify, add_event. cbn. by norm_trace.
Qed.


(** *** The scratch buffer *)

Lemma store_bytes_length h p data q :
  length <$> store_bytes h p data !! q = length <$> h !! q.
Proof.
  unfold store_bytes. destruct (h !! p) as [blk|] eqn:Hp; [|done].
  destruct (length data <=? length blk)%nat eqn:Hle; [|done].
  apply Nat.leb_le in Hle.
  destruct (decide (p = q)) as [->|Hne].
  - rewrite lookup_insert_eq, Hp. cbn. f_equal.
    rewrite length_app, length_drop. lia.
  - by rewrite lookup_insert_ne.
Qed.

Lemma device_step_length op h w q :
  length <$> (device_step E op h w).1.1.2 !! q = length <$> h !! q.
Proof.
  unfold device_step. destruct (op_type op); cbn; try done.
  apply store_bytes_length.
Qed.

Lemma take_inv st st' :
  do_xSemaphoreTake E st = Done tt st' ->
  scratch_view st' = scratch_view st /\
  flash_proxy_task_handle st' = flash_proxy_task_handle st /\
  operation_done_sem st' = operation_done_sem st /\
  current_flash_op st' = current_flash_op st.
Proof.
  rewrite take_eq. destruct (operation_done_sem st =? NULL); [done|].
  intros [= <-]. unfold scratch_view. cbn.
  by rewrite device_step_length.
Qed.

Lemma ensure_eq st size :
  ensure_flash_proxy_buf_size E size st =
    if flash_proxy_buf st =? NULL then
      let r := heap_caps_malloc E size scratch_caps (world st) in
      Done tt
        {| operation_done_sem := operation_done_sem st;
           flash_proxy_task_handle := flash_proxy_task_handle st;
           current_flash_op := current_flash_op st;
           flash_op_result := flash_op_result st;
           flash_proxy_buf := r.1.1;
           flash_proxy_buf_size := size;
           heap := if r.1.1 =? NULL then heap st
                   else <[r.1.1 := resize (N.to_nat size) Byte.x00 r.1.2]> (heap st);
           world := r.2;
           trace := trace st ++ [EvMalloc size scratch_caps r.1.1] |}
    else if flash_proxy_buf_size st <? size then
      let old := flash_proxy_buf st in
      let r := heap_caps_realloc E old size scratch_caps (world st) in
      Done tt
        {| operation_done_sem := operation_done_sem st;
           flash_proxy_task_handle := flash_proxy_task_handle st;
           current_flash_op := current_flash_op st;
           flash_op_result := flash_op_result st;
           flash_proxy_buf := r.1.1;
           flash_proxy_buf_size := size;
           heap := if r.1.1 =? NULL then heap st
                   else <[r.1.1 := resize (N.to_nat size) Byte.x00
                                     (default [] (heap st !! old) ++ r.1.2)]>
                          (delete old (heap st));
           world := r.2;
           trace := trace st ++ [EvRealloc old size scratch_caps r.1.1] |}
    else Done tt st.
Proof.
  unfold ensure_flash_proxy_buf_size, bind, get. cbv beta iota.
  destruct (flash_proxy_buf st =? NULL).
  - unfold do_heap_caps_malloc.
    by destruct (heap_caps_malloc E size scratch_caps (world st)) as [[p j] w].
  - destruct (flash_proxy_buf_size st <? size); [|done].
    unfold do_heap_caps_realloc.
    by destruct (heap_caps_realloc E _ size scratch_caps (world st)) as [[p j] w].
Qed.

Lemma ensure_spec st size :
  exists st',
    ensure_flash_proxy_buf_size E size st = Done tt st' /\
    flash_proxy_task_handle st' = flash_proxy_task_handle st /\
    operation_done_sem st' = operation_done_sem st /\
    current_flash_op st' = current_flash_op st /\
    flash_op_result st' = flash_op_result st /\
    size <= flash_proxy_buf_size st' /\
    (scratch_ok st ->
       flash_proxy_buf_size st <= flash_proxy_buf_size st' /\
       view_mid size (scratch_view st')).
Proof.
  rewrite ensure_eq. unfold scratch_ok, view_ok, view_mid, scratch_view.
  destruct (flash_proxy_buf st =? NULL) eqn:Hb.
  - apply N.eqb_eq in Hb.
    eexists; split; [reflexivity|]. cbn.
    do 4 (split; [reflexivity|]). split; [lia|].
    intros [[_ ->]|[Hn _]]; [|done]. split; [lia|].
    destruct (_ =? NULL) eqn:Hp.
    + left. split; [by apply N.eqb_eq|done].
    + right. split; [by apply N.eqb_neq|].
      rewrite lookup_insert_eq. cbn. by rewrite length_resize.
  - apply N.eqb_neq in Hb.
    destruct (flash_proxy_buf_size st <? size) eqn:Hlt.
    + apply N.ltb_lt in Hlt.
      eexists; split; [reflexivity|]. cbn.
      do 4 (split; [reflexivity|]). split; [lia|].
      intros _. split; [lia|].
      destruct (_ =? NULL) eqn:Hp.
      * left. split; [by apply N.eqb_eq|done].
      * right. split; [by apply N.eqb_neq|].
        rewrite lookup_insert_eq. cbn. by rewrite length_resize.
    + apply N.ltb_ge in Hlt.
      eexists; split; [reflexivity|].
      do 4 (split; [reflexivity|]). split; [lia|].
      intros [[Hn _]|Hok]; [done|]. split; [lia|]. by right.
Qed.

Lemma ensure_noop st size :
  flash_proxy_buf st <> NULL -> size <= flash_proxy_buf_size st ->
  ensure_flash_proxy_buf_size E size st = Done tt st.
Proof.
  intros Hb Hle. rewrite ensure_eq, (eqb_NULL_false _ Hb).
  by apply N.ltb_ge in Hle as ->.
Qed.

Lemma memcpy_to_inv buffer size st st' :
  memcpy_to_scratch buffer size st = Done tt st' ->
  scratch_view st' = scratch_view st /\
  flash_proxy_task_handle st' = flash_proxy_task_handle st /\
  operation_done_sem st' = operation_done_sem st /\
  (size = 0 \/ flash_proxy_buf st <> NULL).
Proof.
  unfold memcpy_to_scratch.
  destruct (size =? 0) eqn:Hz.
  { intros [= <-]. apply N.eqb_eq in Hz. auto. }
  destruct (flash_proxy_buf st =? NULL) eqn:Hb; [done|].
  destruct (heap st !! flash_proxy_buf st) as [blk|] eqn:Hblk; [|done].
  destruct (_ && _) eqn:Hle; [|done].
  apply andb_true_iff in Hle as [H1%Nat.leb_le H2%Nat.leb_le].
  intros [= <-]. unfold scratch_view. cbn.
  rewrite lookup_insert_eq, Hblk. cbn.
  rewrite length_app, length_take, length_drop.
  apply N.eqb_neq in Hb.
  repeat split; auto. do 2 f_equal. lia.
Qed.

Lemma memcpy_from_inv buffer size st b st' :
  memcpy_from_scratch buffer size st = Done b st' ->
  st' = st /\ (size = 0 \/ flash_proxy_buf st <> NULL).
Proof.
  unfold memcpy_from_scratch.
  destruct (size =? 0) eqn:Hz.
  { intros [= <- <-]. apply N.eqb_eq in Hz. auto. }
  destruct (flash_proxy_buf st =? NULL) eqn:Hb; [done|].
  destruct (heap st !! flash_proxy_buf st) as [blk|] eqn:Hblk; [|done].
  destruct (_ && _) eqn:Hle; [|done].
  intros [= <- <-]. apply N.eqb_neq in Hb. auto.
Qed.

Lemma view_mid_ok size v :
  view_mid size v -> size = 0 \/ v.1.1 <> NULL -> view_ok v.
Proof.
  intros [[Hn Hs]|Hok] Hor; [|by right].
  destruct Hor as [->|Hne]; [by left|done].
Qed.


(** *** The entry points, step by step *)

Lemma read_eq st c block off buffer size :
  littlefs_api_read E c block off buffer size st =
    if flash_proxy_task_handle st =? NULL then Done (LFS_ERR_IO, buffer) st else
    match ensure_flash_proxy_buf_size E size st with
    | Done _ st1 =>
        match do_xSemaphoreTake E
                (request_posted
                   (read_request c block off (flash_proxy_buf st1) size) st1) with
        | Done _ st2 =>
            match memcpy_from_scratch buffer size st2 with
            | Done buffer' st3 => Done (0%Z, buffer') st3
            | Crash => Crash
            end
        | Crash => Crash
        end
    | Crash => Crash
    end.
Proof.
  unfold littlefs_api_read, bind, get. cbv beta iota.
  destruct (flash_proxy_task_handle st =? NULL); [reflexivity|].
  destruct (ensure_flash_proxy_buf_size E size st) as [[] st1|]; reflexivity.
Qed.

Lemma prog_eq st c block off buffer size :
  littlefs_api_prog E c block off buffer size st =
    if flash_proxy_task_handle st =? NULL then Done LFS_ERR_IO st else
    match ensure_flash_proxy_buf_size E size st with
    | Done _ st1 =>
        match memcpy_to_scratch buffer size st1 with
        | Done _ st2 =>
            match do_xSemaphoreTake E
                    (request_posted
                       (write_request c block off (flash_proxy_buf st2) size) st2) with
            | Done _ st3 => Done 0%Z st3
            | Crash => Crash
            end
        | Crash => Crash
        end
    | Crash => Crash
    end.
Proof.
  unfold littlefs_api_prog, bind, get. cbv beta iota.
  destruct (flash_proxy_task_handle st =? NULL); [reflexivity|].
  destruct (ensure_flash_proxy_buf_size E size st) as [[] st1|]; [|reflexivity].
  destruct (memcpy_to_scratch buffer size st1) as [[] st2|]; reflexivity.
Qed.

Lemma erase_eq st c block :
  littlefs_api_erase E c block st =
    if flash_proxy_task_handle st =? NULL then Done LFS_ERR_IO st else
    match do_xSemaphoreTake E (request_posted (erase_request c block) st) with
    | Done _ st1 => Done 0%Z st1
    | Crash => Crash
    end.
Proof.
  unfold littlefs_api_erase, bind, get. cbv beta iota.
  destruct (flash_proxy_task_handle st =? NULL); reflexivity.
Qed.

Lemma start_eq st :
  start_flash_proxy_task E st =
    if flash_proxy_task_handle st =? NULL then
      let s := xSemaphoreCreateBinary E (world st) in
      let t := xTaskCreate E 4096 5 s.2 in
      Done tt
        {| operation_done_sem := s.1;
           flash_proxy_task_handle :=
             if t.1 =? NULL then flash_proxy_task_handle st else t.1;
           current_flash_op := current_flash_op st;
           flash_op_result := flash_op_result st;
           flash_proxy_buf := flash_proxy_buf st;
           flash_proxy_buf_size := flash_proxy_buf_size st;
           heap := heap st; world := t.2;
           trace := trace st ++ [EvSemaphoreCreate s.1; EvTaskCreate 4096 5 t.1] |}
    else Done tt st.
Proof.
  unfold start_flash_proxy_task, bind, get. cbv beta iota.
  destruct (flash_proxy_task_handle st =? NULL); [|reflexivity].
  unfold do_xSemaphoreCreateBinary, modify, do_xTaskCreate.
  destruct (xSemaphoreCreateBinary E (world st)) as [sem w1]. cbn.
  destruct (xTaskCreate E 4096 5 w1) as [h w2]. cbn.
  destruct (h =? NULL); unfold add_event, set_flash_proxy_task_handle; cbn;
    by norm_trace.
Qed.

(** *** What every returning call preserves *)

Lemma read_keeps st c block off buffer size r st' :
  scratch_ok st ->
  littlefs_api_read E c block off buffer size st = Done r st' ->
  call_keeps st st'.
Proof.
  intros Hok. rewrite read_eq. unfold call_keeps.
  destruct (flash_proxy_task_handle st =? NULL).
  { intros [= <- <-]. split; [done|lia]. }
  destruct (ensure_spec st size) as (st1 & -> & _ & _ & _ & _ & _ & Hmid).
  destruct (Hmid Hok) as [Hle Hv].
  destruct (do_xSemaphoreTake E _) as [[] st2|] eqn:Htake; [|done].
  apply take_inv in Htake as (Hview & _).
  destruct (memcpy_from_scratch buffer size st2) as [b st3|] eqn:Hcpy; [|done].
  apply memcpy_from_inv in Hcpy as [-> Hor].
  intros [= <- <-].
  assert (Hview' : scratch_view st2 = scratch_view st1) by exact Hview.
  split.
  - unfold scratch_ok. apply (view_mid_ok size).
    + by rewrite Hview'.
    + replace ((scratch_view st2).1.1) with (flash_proxy_buf st2) by done. done.
  - replace (flash_proxy_buf_size st2) with ((scratch_view st2).1.2) by done.
    rewrite Hview'. done.
Qed.

Lemma prog_keeps st c block off buffer size r st' :
  scratch_ok st ->
  littlefs_api_prog E c block off buffer size st = Done r st' ->
  call_keeps st st'.
Proof.
  intros Hok. rewrite prog_eq. unfold call_keeps.
  destruct (flash_proxy_task_handle st =? NULL).
  { intros [= <- <-]. split; [done|lia]. }
  destruct (ensure_spec st size) as (st1 & -> & _ & _ & _ & _ & _ & Hmid).
  destruct (Hmid Hok) as [Hle Hv].
  destruct (memcpy_to_scratch buffer size st1) as [[] st2|] eqn:Hcpy; [|done].
  apply memcpy_to_inv in Hcpy as (Hv2 & _ & _ & Hor).
  destruct (do_xSemaphoreTake E _) as [[] st3|] eqn:Htake; [|done].
  apply take_inv in Htake as (Hview & _).
  intros [= <- <-].
  assert (Hview' : scratch_view st3 = scratch_view st1)
    by (rewrite <- Hv2; exact Hview).
  split.
  - unfold scratch_ok. rewrite Hview'. apply (view_mid_ok size); [done|].
    done.
  - replace (flash_proxy_buf_size st3) with ((scratch_view st3).1.2) by done.
    rewrite Hview'. done.
Qed.

Lemma erase_keeps st c block r st' :
  scratch_ok st ->
  littlefs_api_erase E c block st = Done r st' ->
  call_keeps st st'.
Proof.
  intros Hok. rewrite erase_eq. unfold call_keeps.
  destruct (flash_proxy_task_handle st =? NULL).
  { intros [= <- <-]. split; [done|lia]. }
  destruct (do_xSemaphoreTake E _) as [[] st1|] eqn:Htake; [|done].
  apply take_inv in Htake as (Hview & _).
  intros [= <- <-].
  assert (Hview' : scratch_view st1 = scratch_view st) by exact Hview.
  split.
  - unfold scratch_ok. by rewrite Hview'.
  - replace (flash_proxy_buf_size st1) with ((scratch_view st1).1.2) by done.
    rewrite Hview'. done.
Qed.

Lemma start_keeps st st' :
  scratch_ok st ->
  start_flash_proxy_task E st = Done tt st' ->
  call_keeps st st'.
Proof.
  intros Hok. rewrite start_eq. unfold call_keeps.
  destruct (flash_proxy_task_handle st =? NULL); intros [= <-]; (split; [done|]);
    cbn; lia.
Qed.

Lemma run_call_keeps k st st' :
  scratch_ok st -> run_call E k st = Done tt st' -> call_keeps st st'.
Proof.
  intros Hok. destruct k; cbn [run_call]; unfold discard.
  - by apply start_keeps.
  - intros (r & s & H & [= <-])%bind_Done. by eapply read_keeps.
  - intros (r & s & H & [= <-])%bind_Done. by eapply prog_keeps.
  - intros (r & s & H & [= <-])%bind_Done. by eapply erase_keeps.
  - intros (r & s & [= <- <-] & [= <-])%bind_Done. split; [done|lia].
Qed.

Lemma run_calls_keeps ks st st' :
  scratch_ok st -> run_calls E ks st = Done tt st' -> call_keeps st st'.
Proof.
  revert st. induction ks as [|k ks IH]; intros st Hok; cbn.
  - intros [= <-]. split; [done|lia].
  - intros ([] & s & Hk & Hks)%bind_Done.
    destruct (run_call_keeps _ _ _ Hok Hk) as [Hok1 Hle1].
    destruct (IH _ Hok1 Hks) as [Hok2 Hle2].
    split; [done|lia].
Qed.

Lemma initial_scratch_ok (w : W) : scratch_ok (initial_state w).
Proof. by left. Qed.

Lemma reachable_scratch_ok st : reachable E st -> scratch_ok st.
Proof.
  intros (w & ks & H).
  by destruct (run_calls_keeps _ _ _ (initial_scratch_ok w) H).
Qed.

(** *** Calls on a started proxy *)

Lemma scratch_ok_nonnull st n :
  scratch_ok st -> n < flash_proxy_buf_size st -> flash_proxy_buf st <> NULL.
Proof.
  intros [[_ Hz]|[Hn _]] Hlt; [|done]. cbn in Hz. lia.
Qed.

Lemma view_fields st st' :
  scratch_view st' = scratch_view st ->
  flash_proxy_buf st' = flash_proxy_buf st /\
  flash_proxy_buf_size st' = flash_proxy_buf_size st.
Proof. unfold scratch_view. by intros [= -> ->]. Qed.

Lemma run_call_reuses k st st' :
  scratch_ok st ->
  requested_size k < flash_proxy_buf_size st ->
  run_call E k st = Done tt st' ->
  flash_proxy_buf st' = flash_proxy_buf st /\
  flash_proxy_buf_size st' = flash_proxy_buf_size st.
Proof.
  intros Hok Hlt.
  assert (Hb : flash_proxy_buf st <> NULL) by by eapply scratch_ok_nonnull.
  destruct k as [|c block off buffer size|c block off buffer size|c block|c];
    cbn [run_call requested_size] in *; unfold discard.
  - rewrite start_eq.
    by destruct (flash_proxy_task_handle st =? NULL); intros [= <-].
  - intros (r & s & H & [= <-])%bind_Done. revert H. rewrite read_eq.
    destruct (flash_proxy_task_handle st =? NULL); [by intros [= <- <-]|].
    rewrite (ensure_noop st size Hb) by lia.
    destruct (do_xSemaphoreTake E _) as [[] st2|] eqn:Htake; [|done].
    apply take_inv in Htake as (Hview & _).
    destruct (memcpy_from_scratch buffer size st2) as [b st3|] eqn:Hcpy; [|done].
    apply memcpy_from_inv in Hcpy as [-> _].
    intros [= <- <-]. by apply view_fields in Hview.
  - intros (r & s & H & [= <-])%bind_Done. revert H. rewrite prog_eq.
    destruct (flash_proxy_task_handle st =? NULL); [by intros [= <- <-]|].
    rewrite (ensure_noop st size Hb) by lia.
    destruct (memcpy_to_scratch buffer size st) as [[] st2|] eqn:Hcpy; [|done].
    apply memcpy_to_inv in Hcpy as (Hv2 & _).
    destruct (do_xSemaphoreTake E _) as [[] st3|] eqn:Htake; [|done].
    apply take_inv in Htake as (Hview & _).
    intros [= <- <-]. apply view_fields. by rewrite <- Hv2.
  - intros (r & s & H & [= <-])%bind_Done. revert H. rewrite erase_eq.
    destruct (flash_proxy_task_handle st =? NULL); [by intros [= <- <-]|].
    destruct (do_xSemaphoreTake E _) as [[] st1|] eqn:Htake; [|done].
    apply take_inv in Htake as (Hview & _).
    intros [= <- <-]. by apply view_fields in Hview.
  - by intros (r & s & [= <- <-] & [= <-])%bind_Done.
Qed.

Lemma ensure_serves st n :
  scratch_ok st -> allocator_serves E n (world st) ->
  exists st1 blk,
    ensure_flash_proxy_buf_size E n st = Done tt st1 /\
    flash_proxy_task_handle st1 = flash_proxy_task_handle st /\
    operation_done_sem st1 = operation_done_sem st /\
    flash_proxy_buf st1 <> NULL /\
    n <= flash_proxy_buf_size st1 /\
    heap st1 !! flash_proxy_buf st1 = Some blk /\
    (N.to_nat n <= length blk)%nat.
Proof.
  intros Hok [Hm Hre]. rewrite ensure_eq.
  destruct (flash_proxy_buf st =? NULL) eqn:Hb.
  - do 2 eexists. split; [reflexivity|]. cbn.
    rewrite (eqb_NULL_false _ Hm), lookup_insert_eq.
    repeat split; try done; try lia. by rewrite length_resize.
  - apply N.eqb_neq in Hb.
    destruct (flash_proxy_buf_size st <? n) eqn:Hlt.
    + specialize (Hre (flash_proxy_buf st)).
      do 2 eexists. split; [reflexivity|]. cbn.
      rewrite (eqb_NULL_false _ Hre), lookup_insert_eq.
      repeat split; try done; try lia. by rewrite length_resize.
    + apply N.ltb_ge in Hlt.
      destruct Hok as [[Hn _]|[_ Hblk]]; [done|].
      cbn in Hblk. destruct (heap st !! flash_proxy_buf st) as [blk|] eqn:Hl; [|done].
      injection Hblk as Hlen.
      exists st, blk. repeat split; try done; lia.
Qed.

Lemma memcpy_to_spec st buffer size blk :
  flash_proxy_buf st <> NULL ->
  heap st !! flash_proxy_buf st = Some blk ->
  (N.to_nat size <= length blk)%nat ->
  (N.to_nat size <= length buffer)%nat ->
  exists st2 blk2,
    memcpy_to_scratch buffer size st = Done tt st2 /\
    flash_proxy_task_handle st2 = flash_proxy_task_handle st /\
    operation_done_sem st2 = operation_done_sem st /\
    flash_proxy_buf st2 = flash_proxy_buf st /\
    flash_proxy_buf_size st2 = flash_proxy_buf_size st /\
    world st2 = world st /\
    heap st2 !! flash_proxy_buf st = Some blk2 /\
    length blk2 = length blk /\
    take (N.to_nat size) blk2 = take (N.to_nat size) buffer.
Proof.
  intros Hb Hblk H1 H2. unfold memcpy_to_scratch.
  destruct (size =? 0) eqn:Hz.
  { apply N.eqb_eq in Hz. subst size. exists st, blk.
    repeat split; try done. }
  rewrite (eqb_NULL_false _ Hb), Hblk.
  apply Nat.leb_le in H1 as H1'. apply Nat.leb_le in H2 as H2'.
  rewrite H1', H2'. cbn.
  do 2 eexists. split; [reflexivity|]. cbn.
  rewrite lookup_insert_eq. repeat split; try done.
  - rewrite length_app, length_take, length_drop. lia.
  - rewrite take_app_le by (rewrite length_take; lia).
    rewrite take_take. f_equal. lia.
Qed.

Lemma memcpy_from_spec st buffer size blk :
  flash_proxy_buf st <> NULL ->
  heap st !! flash_proxy_buf st = Some blk ->
  (N.to_nat size <= length blk)%nat ->
  (N.to_nat size <= length buffer)%nat ->
  memcpy_from_scratch buffer size st
    = Done (take (N.to_nat size) blk ++ drop (N.to_nat size) buffer) st.
Proof.
  intros Hb Hblk H1 H2. unfold memcpy_from_scratch.
  destruct (size =? 0) eqn:Hz.
  { apply N.eqb_eq in Hz. by subst size. }
  rewrite (eqb_NULL_false _ Hb), Hblk.
  apply Nat.leb_le in H1 as ->. by apply Nat.leb_le in H2 as ->.
Qed.

Lemma take_write_spec st op :
  operation_done_sem st <> NULL ->
  op_type op = FLASH_OP_WRITE ->
  let r := esp_partition_write E (op_partition op) (op_part_off op)
             (load_bytes (heap st) (op_buffer op) (op_size op)) (op_size op)
             (world st) in
  exists st',
    do_xSemaphoreTake E (request_posted op st) = Done tt st' /\
    flash_proxy_task_handle st' = flash_proxy_task_handle st /\
    operation_done_sem st' = operation_done_sem st /\
    flash_proxy_buf st' = flash_proxy_buf st /\
    flash_proxy_buf_size st' = flash_proxy_buf_size st /\
    heap st' = heap st /\
    world st' = r.2 /\
    flash_op_result st' = if (r.1 =? 0)%Z then 0%Z else LFS_ERR_IO.
Proof.
  intros Hs Hop r. rewrite take_eq.
  cbn [operation_done_sem request_posted add_event set_current_flash_op].
  rewrite (eqb_NULL_false _ Hs).
  eexists. split; [reflexivity|]. cbn. unfold device_step. rewrite Hop. done.
Qed.

Lemma take_read_spec st op :
  operation_done_sem st <> NULL ->
  op_type op = FLASH_OP_READ ->
  let r := esp_partition_read E (op_partition op) (op_part_off op)
             (op_buffer op) (op_size op) (world st) in
  exists st',
    do_xSemaphoreTake E (request_posted op st) = Done tt st' /\
    flash_proxy_task_handle st' = flash_proxy_task_handle st /\
    operation_done_sem st' = operation_done_sem st /\
    flash_proxy_buf st' = flash_proxy_buf st /\
    flash_proxy_buf_size st' = flash_proxy_buf_size st /\
    heap st' = store_bytes (heap st) (op_buffer op)
                 (take (N.to_nat (op_size op)) r.1.2) /\
    world st' = r.2 /\
    flash_op_result st' = if (r.1.1 =? 0)%Z then 0%Z else LFS_ERR_IO.
Proof.
  intros Hs Hop r. rewrite take_eq.
  cbn [operation_done_sem request_posted add_event set_current_flash_op].
  rewrite (eqb_NULL_false _ Hs).
  eexists. split; [reflexivity|]. cbn. unfold device_step. rewrite Hop. done.
Qed.

(** 32-bit arithmetic of the offset computation. *)
Lemma wrap32_add_l a b : wrap32 (wrap32 a + b) = (a + b) mod 2 ^ 32.
Proof. unfold wrap32, word_bits. by rewrite N.Div0.add_mod_idemp_l. Qed.

Lemma wrap32_small a : a < 2 ^ 32 -> a mod 2 ^ 32 = a.
Proof. intros H. by apply N.mod_small. Qed.

(** Once the task exists, no entry point ever returns anything but 0: the
    value of [flash_op_result] is not consulted. *)
Lemma entry_points_return_zero st c block off buffer size :
  flash_proxy_task_handle st <> NULL ->
  (forall r st', littlefs_api_read E c block off buffer size st = Done r st' ->
                 r.1 = 0%Z) /\
  (forall r st', littlefs_api_prog E c block off buffer size st = Done r st' ->
                 r = 0%Z) /\
  (forall r st', littlefs_api_erase E c block st = Done r st' -> r = 0%Z).
Proof.
  intros Hh. rewrite read_eq, prog_eq, erase_eq, (eqb_NULL_false _ Hh).
  split; [|split]; intros r st'.
  - destruct (ensure_flash_proxy_buf_size E size st) as [[] st1|]; [|done].
    destruct (do_xSemaphoreTake E _) as [[] st2|]; [|done].
    destruct (memcpy_from_scratch buffer size st2) as [b st3|]; [|done].
    by intros [= <- <-].
  - destruct (ensure_flash_proxy_buf_size E size st) as [[] st1|]; [|done].
    destruct (memcpy_to_scratch buffer size st1) as [[] st2|]; [|done].
    destruct (do_xSemaphoreTake E _) as [[] st3|]; [|done].
    by intros [= <- <-].
  - destruct (do_xSemaphoreTake E _) as [[] st1|]; [|done].
    by intros [= <- <-].
Qed.

(** A first allocation that fails is never reported: with more than zero
    bytes requested, both entry points go on to copy through NULL. *)
Lemma failed_malloc_crashes st c block off buffer size :
  flash_proxy_task_handle st <> NULL ->
  flash_proxy_buf st = NULL ->
  (heap_caps_malloc E size scratch_caps (world st)).1.1 = NULL ->
  size <> 0 ->
  littlefs_api_prog E c block off buffer size st = Crash /\
  littlefs_api_read E c block off buffer size st = Crash.
Proof.
  intros Hh Hb Hm Hz.
  rewrite prog_eq, read_eq, (eqb_NULL_false _ Hh), ensure_eq, Hb.
  cbn [N.eqb NULL]. cbv beta iota zeta. rewrite Hm.
  apply N.eqb_neq in Hz. split.
  - unfold memcpy_to_scratch. by rewrite Hz.
  - destruct (do_xSemaphoreTake E _) as [[] st2|] eqn:Htake; [|done].
    apply take_inv in Htake as (Hview & _).
    apply view_fields in Hview as [Hbuf _]. cbn in Hbuf.
    unfold memcpy_from_scratch. by rewrite Hz, Hbuf.
Qed.

End Facts.

(** ** The simulated board meets the assumptions *)

Lemma flash_read_insert_below off n k b (f : gmap N byte) :
  k < off -> flash_read off n (<[k := b]> f) = flash_read off n f.
Proof.
  revert off. induction n as [|n IH]; intros off Hlt; [done|]. cbn.
  rewrite lookup_insert_ne by lia. f_equal. apply IH. lia.
Qed.

Lemma flash_read_write off data (f : gmap N byte) :
  flash_read off (length data) (flash_write off data f) = data.
Proof.
  revert off. induction data as [|b bs IH]; intros off; [done|]. cbn.
  rewrite lookup_insert_eq. cbn. f_equal.
  rewrite flash_read_insert_below by lia. apply IH.
Qed.

Lemma good_board_stores_faithfully : stores_faithfully good_board.
Proof.
  intros part off data w n. eexists. split; [reflexivity|].
  intros dst Hdst. eexists. cbn. rewrite (eqb_NULL_false _ Hdst).
  unfold n. rewrite Nat2N.id. by rewrite flash_read_write.
Qed.

Lemma booted_reachable E : reachable E (booted E).
Proof.
  exists sim_boot, [CallStart]. unfold booted.
  cbn [run_calls run_call]. unfold bind. by rewrite start_eq.
Qed.

(** ** The properties of the specification *)

Section Claims.
Context {W : Type} (E : Collaborators W).
Implicit Types (st : state W) (c : lfs_config).

(** Claim C2.  An entry point (read, program or erase) invoked while the
    executor task has never been started, that is with the task handle still
    NULL, returns the I/O error LFS_ERR_IO at once: the trace is left as it
    was, so the proxy task was not notified and the completion semaphore was
    not waited on. *)
Theorem not_started_fails_without_waiting st c block off buffer size :
  flash_proxy_task_handle st = NULL ->
  (exists st', littlefs_api_read E c block off buffer size st
                 = Done (LFS_ERR_IO, buffer) st' /\ trace st' = trace st) /\
  (exists st', littlefs_api_prog E c block off buffer size st
                 = Done LFS_ERR_IO st' /\ trace st' = trace st) /\
  (exists st', littlefs_api_erase E c block st
                 = Done LFS_ERR_IO st' /\ trace st' = trace st).
Proof.
  intros H. rewrite read_eq, prog_eq, erase_eq, H. cbn.
  repeat split; by eexists.
Qed.

(** Claim C10.  An entry point invoked while the executor task has never
    been started returns without writing shared state: the request slot, the
    outcome, the scratch pointer, the recorded capacity and the heap are what
    they were. *)
Theorem not_started_leaves_shared_state st c block off buffer size :
  flash_proxy_task_handle st = NULL ->
  (exists r st', littlefs_api_read E c block off buffer size st = Done r st'
                 /\ same_shared_state st st') /\
  (exists r st', littlefs_api_prog E c block off buffer size st = Done r st'
                 /\ same_shared_state st st') /\
  (exists r st', littlefs_api_erase E c block st = Done r st'
                 /\ same_shared_state st st').
Proof.
  intros H. rewrite read_eq, prog_eq, erase_eq, H. cbn.
  repeat split; do 2 eexists; (split; [reflexivity|done]).
Qed.

(** Claim C9.  One turn of the proxy task, on a task whose completion
    semaphore exists, issues the device call selected by the kind of the
    request and no other: a read request calls esp_partition_read, a write
    request esp_partition_write, an erase request esp_partition_erase_range,
    each once with the fields of the request; any other kind calls nothing
    and counts as an invalid argument.  The outcome recorded is 0 when the
    status is 0 and LFS_ERR_IO for every other status. *)
Theorem proxy_task_turn st :
  operation_done_sem st <> NULL ->
  let op := current_flash_op st in
  exists st' evs,
    flash_proxy_task_iter E st = Done tt st' /\
    trace st' = trace st ++ evs /\
    match op_type op with
    | FLASH_OP_READ =>
        let err := (esp_partition_read E (op_partition op) (op_part_off op)
                      (op_buffer op) (op_size op) (world st)).1.1 in
        device_calls evs =
          [EvPartitionRead (op_partition op) (op_part_off op) (op_buffer op)
             (op_size op) err] /\
        flash_op_result st' = if (err =? 0)%Z then 0%Z else LFS_ERR_IO
    | FLASH_OP_WRITE =>
        let err := (esp_partition_write E (op_partition op) (op_part_off op)
                      (load_bytes (heap st) (op_buffer op) (op_size op))
                      (op_size op) (world st)).1 in
        device_calls evs =
          [EvPartitionWrite (op_partition op) (op_part_off op) (op_buffer op)
             (op_size op) err] /\
        flash_op_result st' = if (err =? 0)%Z then 0%Z else LFS_ERR_IO
    | FLASH_OP_ERASE =>
        let err := (esp_partition_erase_range E (op_partition op)
                      (op_part_off op) (op_size op) (world st)).1 in
        device_calls evs =
          [EvPartitionErase (op_partition op) (op_part_off op) (op_size op) err] /\
        flash_op_result st' = if (err =? 0)%Z then 0%Z else LFS_ERR_IO
    | FLASH_OP_NONE | FLASH_OP_INVALID =>
        device_calls evs = [] /\ flash_op_result st' = LFS_ERR_IO
    end.
Proof.
  intros Hs op. rewrite iter_eq, (eqb_NULL_false _ Hs).
  do 2 eexists. split; [reflexivity|]. cbn [trace flash_op_result].
  split; [reflexivity|].
  unfold device_step. fold op. destruct (op_type op); cbn; done.
Qed.

(** Claim C3, amended.  For a read or program call with block index b,
    in-block offset o and block size s, made once the task handle is set,
    the offset placed in the request is (b * s + o) mod 2^32: product and sum
    are 32-bit unsigned.  It is b * s + o whenever that is below 2^32. *)
Theorem request_offset_is_wrapped st c block off buffer size :
  flash_proxy_task_handle st <> NULL ->
  (forall r st',
      littlefs_api_read E c block off buffer size st = Done r st' ->
      op_part_off (current_flash_op st') = (block * block_size c + off) mod 2 ^ 32) /\
  (forall r st',
      littlefs_api_prog E c block off buffer size st = Done r st' ->
      op_part_off (current_flash_op st') = (block * block_size c + off) mod 2 ^ 32) /\
  (block * block_size c + off < 2 ^ 32 ->
   (block * block_size c + off) mod 2 ^ 32 = block * block_size c + off).
Proof.
  intros Hh. split; [|split].
  - intros r st'. rewrite read_eq, (eqb_NULL_false _ Hh).
    destruct (ensure_flash_proxy_buf_size E size st) as [[] st1|]; [|done].
    destruct (do_xSemaphoreTake E _) as [[] st2|] eqn:Htake; [|done].
    apply take_inv in Htake as (_ & _ & _ & Hop).
    destruct (memcpy_from_scratch buffer size st2) as [b st3|] eqn:Hcpy; [|done].
    apply memcpy_from_inv in Hcpy as [-> _].
    intros [= <- <-]. rewrite Hop. cbn. apply wrap32_add_l.
  - intros r st'. rewrite prog_eq, (eqb_NULL_false _ Hh).
    destruct (ensure_flash_proxy_buf_size E size st) as [[] st1|]; [|done].
    destruct (memcpy_to_scratch buffer size st1) as [[] st2|]; [|done].
    destruct (do_xSemaphoreTake E _) as [[] st3|] eqn:Htake; [|done].
    apply take_inv in Htake as (_ & _ & _ & Hop).
    intros [= <- <-]. rewrite Hop. cbn. apply wrap32_add_l.
  - apply wrap32_small.
Qed.

(** Claim C4, amended.  An erase call with block index b and block size s on
    a started executor returns 0 and leaves in the request slot an erase
    request with offset (b * s) mod 2^32, length exactly s and a NULL
    buffer; between the notification and the semaphore the device observes
    exactly one call, an erase of s bytes at that offset.  The offset is
    b * s whenever that is below 2^32. *)
Theorem erase_targets_one_block st c block :
  started st ->
  let part := partition (context c) in
  let off := (block * block_size c) mod 2 ^ 32 in
  let err := (esp_partition_erase_range E part off (block_size c) (world st)).1 in
  exists st',
    littlefs_api_erase E c block st = Done 0%Z st' /\
    current_flash_op st' =
      {| op_type := FLASH_OP_ERASE; op_partition := part; op_part_off := off;
         op_buffer := NULL; op_size := block_size c |} /\
    trace st' = trace st ++
      [EvNotifyGive (flash_proxy_task_handle st); EvNotifyTake;
       EvPartitionErase part off (block_size c) err;
       EvSemaphoreGive (operation_done_sem st);
       EvSemaphoreTake (operation_done_sem st)] /\
    (block * block_size c < 2 ^ 32 -> off = block * block_size c).
Proof.
  intros [Hh Hs] part off err.
  rewrite erase_eq, (eqb_NULL_false _ Hh), take_eq.
  cbn [operation_done_sem request_posted add_event set_current_flash_op].
  rewrite (eqb_NULL_false _ Hs).
  eexists. split; [reflexivity|]. cbn.
  split; [reflexivity|]. split; [by norm_trace|].
  apply wrap32_small.
Qed.

(** Claim C5.  An invocation of the start-up hook made with the task handle
    set changes nothing.  Hence, from a state where the executor was never
    started and on an RTOS that can create the two objects, n >= 1
    invocations in a row create the completion semaphore once and the task
    once: the trace grows by exactly those two events, and the executor is
    started. *)
Theorem start_is_idempotent st :
  (flash_proxy_task_handle st <> NULL ->
   start_flash_proxy_task E st = Done tt st) /\
  (forall n : nat,
      (1 <= n)%nat ->
      flash_proxy_task_handle st = NULL ->
      rtos_can_start E (world st) ->
      exists st' sem task,
        start_times E n st = Done tt st' /\
        trace st' = trace st ++ [EvSemaphoreCreate sem; EvTaskCreate 4096 5 task] /\
        operation_done_sem st' = sem /\
        flash_proxy_task_handle st' = task /\
        started st' /\
        tasks_created (trace st') = S (tasks_created (trace st)) /\
        semaphores_created (trace st') = S (semaphores_created (trace st))).
Proof.
  split.
  { intros Hh. by rewrite start_eq, (eqb_NULL_false _ Hh). }
  intros n Hn Hh [Hs Ht]. destruct n as [|n]; [lia|]. cbn [start_times].
  unfold bind. rewrite start_eq, Hh. cbn.
  set (s := xSemaphoreCreateBinary E (world st)) in *.
  set (t := xTaskCreate E 4096 5 s.2) in *.
  rewrite (eqb_NULL_false _ Ht).
  set (st1 := Build_state _ _ _ _ _ _ _ _ _ _).
  assert (Hrest : forall m, start_times E m st1 = Done tt st1).
  { induction m as [|m IH]; [done|]. cbn [start_times]. unfold bind.
    rewrite start_eq. cbn. by rewrite (eqb_NULL_false _ Ht). }
  rewrite Hrest. exists st1, s.1, t.1. cbn.
  repeat split; try done.
  - unfold tasks_created. rewrite filter_app, length_app. cbn.
    rewrite (eqb_NULL_false _ Ht). cbn.
    rewrite decide_False by done. rewrite decide_True by done. cbn. lia.
  - unfold semaphores_created. rewrite filter_app, length_app. cbn.
    rewrite (eqb_NULL_false _ Hs). cbn.
    rewrite decide_True by done. rewrite decide_False by done. cbn. lia.
Qed.

(** Claim C6.  After ensure_flash_proxy_buf_size(n) the recorded capacity is
    at least n, in every state.  From any state the program reaches, a
    sequence of calls that return never lowers the recorded capacity, and a
    request for fewer bytes than the recorded capacity changes nothing: the
    ensure step is the identity, and the call leaves pointer and capacity as
    they were. *)
Theorem scratch_capacity_only_grows :
  (forall st n, exists st',
      ensure_flash_proxy_buf_size E n st = Done tt st' /\
      n <= flash_proxy_buf_size st') /\
  (forall st ks st',
      reachable E st -> run_calls E ks st = Done tt st' ->
      flash_proxy_buf_size st <= flash_proxy_buf_size st') /\
  (forall st n,
      reachable E st -> n < flash_proxy_buf_size st ->
      ensure_flash_proxy_buf_size E n st = Done tt st) /\
  (forall st k st',
      reachable E st -> requested_size k < flash_proxy_buf_size st ->
      run_call E k st = Done tt st' ->
      flash_proxy_buf st' = flash_proxy_buf st /\
      flash_proxy_buf_size st' = flash_proxy_buf_size st).
Proof.
  split; [|split; [|split]].
  - intros st n.
    destruct (ensure_spec E st n) as (st' & H & _ & _ & _ & _ & Hle & _). eauto.
  - intros st ks st' Hr Hrun. apply reachable_scratch_ok in Hr.
    by destruct (run_calls_keeps E ks st st' Hr Hrun).
  - intros st n Hr Hlt. apply reachable_scratch_ok in Hr.
    apply ensure_noop; [by eapply scratch_ok_nonnull|lia].
  - intros st k st' Hr Hlt Hrun. apply reachable_scratch_ok in Hr.
    by eapply run_call_reuses.
Qed.

(** Claim C8.  On a device that stores bytes faithfully, with the executor
    started and the allocator able to serve the scratch buffer, programming
    the bytes [data] at (block, off) and then reading as many bytes at
    (block, off) both return 0, and the read delivers [data] at the start of
    the caller's buffer. *)
Theorem program_then_read_round_trip st c block off (data out : list byte) :
  let L := N.of_nat (length data) in
  reachable E st ->
  started st ->
  allocator_serves E L (world st) ->
  stores_faithfully E ->
  (length data <= length out)%nat ->
  exists st1 st2,
    littlefs_api_prog E c block off data L st = Done 0%Z st1 /\
    littlefs_api_read E c block off out L st1
      = Done (0%Z, data ++ drop (length data) out) st2.
Proof.
  intros L Hr [Hh Hs] Ha Hf Hout.
  apply reachable_scratch_ok in Hr.
  assert (HL : N.to_nat L = length data) by (unfold L; lia).
  (* program *)
  destruct (ensure_serves E st L Hr Ha)
    as (sa & blk & Hens & Hha & Hsa & Hba & Hcap & Hblk & Hlen).
  destruct (memcpy_to_spec sa data L blk Hba Hblk Hlen ltac:(lia))
    as (sb & blk2 & Hcpy & Hhb & Hsb & Hbb & Hcb & Hwb & Hblk2 & Hlen2 & Htake).
  set (wr := write_request c block off (flash_proxy_buf sb) L).
  destruct (take_write_spec E sb wr ltac:(congruence) eq_refl)
    as (sc & Htk & Hhc & Hsc & Hbc & Hcc & Hheapc & Hwc & _).
  cbn [wr write_request op_partition op_part_off op_buffer op_size] in Hwc.
  assert (Hload : load_bytes (heap sb) (flash_proxy_buf sb) L = data).
  { unfold load_bytes. rewrite Hbb, Hblk2, Htake, HL. apply firstn_all. }
  rewrite Hload in Hwc.
  destruct (Hf (partition (context c))
              (wrap32 (wrap32 (block * block_size c) + off)) data (world sb))
    as (w' & Hwrite & Hread).
  fold L in Hwrite. rewrite Hwrite in Hwc. cbn in Hwc.
  exists sc.
  (* read *)
  assert (Hbc' : flash_proxy_buf sc <> NULL) by congruence.
  assert (Hens2 : ensure_flash_proxy_buf_size E L sc = Done tt sc).
  { apply ensure_noop; [done|]. congruence. }
  set (rd := read_request c block off (flash_proxy_buf sc) L).
  destruct (take_read_spec E sc rd ltac:(congruence) eq_refl)
    as (sd & Htk2 & Hhd & Hsd & Hbd & Hcd & Hheapd & Hwd & _).
  cbn [rd read_request op_partition op_part_off op_buffer op_size] in Hheapd.
  destruct (Hread (flash_proxy_buf sc) Hbc') as (w'' & Hrd).
  fold L in Hrd. rewrite Hwc, Hrd in Hheapd. cbn in Hheapd.
  assert (Hblkd : heap sd !! flash_proxy_buf sd
                  = Some (data ++ drop (length data) blk2)).
  { rewrite Hheapd, Hbd. unfold store_bytes.
    rewrite Hheapc, Hbc, Hbb, Hblk2, HL, firstn_all.
    assert ((length data <=? length blk2)%nat = true) as ->
      by (apply Nat.leb_le; lia).
    apply lookup_insert_eq. }
  exists sd. split.
  - subst wr. rewrite prog_eq, (eqb_NULL_false _ Hh), Hens. cbv beta iota.
    rewrite Hcpy. cbv beta iota. by rewrite Htk.
  - assert (Hhc' : flash_proxy_task_handle sc <> NULL) by congruence.
    subst rd. rewrite read_eq, (eqb_NULL_false _ Hhc'), Hens2.
    cbv beta iota. rewrite Htk2. cbv beta iota.
    assert (Hbd' : flash_proxy_buf sd <> NULL) by congruence.
    rewrite (memcpy_from_spec sd out L _ Hbd' Hblkd).
    + rewrite HL, take_app_length. done.
    + rewrite length_app, length_drop. lia.
    + lia.
Qed.

End Claims.

(** ** The properties on the simulated board *)

Lemma booted_started : started (booted good_board).
Proof. split; vm_compute; discriminate. Qed.

Lemma not_started_fails_without_waiting_witness :
  flash_proxy_task_handle (initial_state sim_boot) = NULL /\
  exists st',
    littlefs_api_erase good_board cfg4096 5 (initial_state sim_boot)
      = Done LFS_ERR_IO st' /\
    trace st' = [].
Proof.
  split; [reflexivity|].
  apply (not_started_fails_without_waiting good_board (initial_state sim_boot)
           cfg4096 5 0 bytes_00 16).
  reflexivity.
Defined.

Lemma not_started_leaves_shared_state_witness :
  flash_proxy_task_handle (initial_state sim_boot) = NULL /\
  exists r st',
    littlefs_api_prog good_board cfg4096 2 10 bytes_AA 16 (initial_state sim_boot)
      = Done r st' /\
    same_shared_state (initial_state sim_boot) st'.
Proof.
  split; [reflexivity|].
  apply (not_started_leaves_shared_state good_board (initial_state sim_boot)
           cfg4096 2 10 bytes_AA 16).
  reflexivity.
Defined.

Lemma proxy_task_turn_witness :
  let st := after_calls good_board [CallRead cfg4096 2 10 bytes_00 16]
              (booted good_board) in
  operation_done_sem st <> NULL /\
  exists st' evs,
    flash_proxy_task_iter good_board st = Done tt st' /\
    trace st' = trace st ++ evs /\
    device_calls evs = [EvPartitionRead 1061191680 8202 1073414144 16 0] /\
    flash_op_result st' = 0%Z.
Proof.
  intros st.
  assert (H : operation_done_sem st <> NULL) by (vm_compute; discriminate).
  split; [exact H|].
  exact (proxy_task_turn good_board st H).
Defined.

Lemma request_offset_is_wrapped_witness :
  flash_proxy_task_handle (booted good_board) <> NULL /\
  exists r st',
    littlefs_api_read good_board cfg4096 2 10 bytes_00 16 (booted good_board)
      = Done r st' /\
    op_part_off (current_flash_op st') = (2 * block_size cfg4096 + 10) mod 2 ^ 32.
Proof.
  assert (H : flash_proxy_task_handle (booted good_board) <> NULL)
    by (vm_compute; discriminate).
  split; [exact H|].
  destruct (littlefs_api_read good_board cfg4096 2 10 bytes_00 16 (booted good_board))
    as [r st'|] eqn:Hrun; [|vm_compute in Hrun; discriminate].
  exists r, st'. split; [reflexivity|].
  exact (proj1 (request_offset_is_wrapped good_board (booted good_board)
                  cfg4096 2 10 bytes_00 16 H) r st' Hrun).
Defined.

Lemma erase_targets_one_block_witness :
  started (booted good_board) /\
  exists st',
    littlefs_api_erase good_board cfg4096 5 (booted good_board) = Done 0%Z st' /\
    current_flash_op st' =
      {| op_type := FLASH_OP_ERASE; op_partition := 1061191680;
         op_part_off := 20480; op_buffer := NULL; op_size := 4096 |} /\
    device_calls (trace st') = [EvPartitionErase 1061191680 20480 4096 0].
Proof.
  split; [apply booted_started|].
  destruct (erase_targets_one_block good_board (booted good_board) cfg4096 5
              booted_started) as (st' & Hrun & Hop & Htr & _).
  exists st'. split; [exact Hrun|]. split; [exact Hop|].
  rewrite Htr. vm_compute. reflexivity.
Defined.

Lemma start_is_idempotent_witness :
  exists st' sem task,
    start_times good_board 3 (initial_state sim_boot) = Done tt st' /\
    trace st' = [EvSemaphoreCreate sem; EvTaskCreate 4096 5 task] /\
    operation_done_sem st' = sem /\
    flash_proxy_task_handle st' = task /\
    started st' /\
    tasks_created (trace st') = 1%nat /\
    semaphores_created (trace st') = 1%nat.
Proof.
  apply (proj2 (start_is_idempotent good_board (initial_state sim_boot)) 3%nat).
  - lia.
  - reflexivity.
  - split; vm_compute; discriminate.
Defined.

Lemma scratch_capacity_only_grows_witness :
  let ks := [CallProg cfg4096 2 10 bytes_AA 16; CallRead cfg4096 2 10 bytes_00 8] in
  flash_proxy_buf_size (booted good_board)
    <= flash_proxy_buf_size (after_calls good_board ks (booted good_board)).
Proof.
  intros ks.
  apply (proj1 (proj2 (scratch_capacity_only_grows good_board))
           (booted good_board) ks).
  - apply booted_reachable.
  - vm_compute. reflexivity.
Defined.

Lemma program_then_read_round_trip_witness :
  exists st1 st2,
    littlefs_api_prog good_board cfg4096 2 10 bytes_AA 16 (booted good_board)
      = Done 0%Z st1 /\
    littlefs_api_read good_board cfg4096 2 10 bytes_00 16 st1
      = Done (0%Z, bytes_AA) st2.
Proof.
  apply (program_then_read_round_trip good_board (booted good_board)
           cfg4096 2 10 bytes_AA bytes_00).
  - apply booted_reachable.
  - apply booted_started.
  - split; [vm_compute; discriminate|intros old; vm_compute; discriminate].
  - apply good_board_stores_faithfully.
  - vm_compute. lia.
Defined.

(** Claim C3 as stated fails where the 32-bit product wraps: block 2^20 of a
    4096-byte-block device has b * s + o = 2^32, and the request carries
    offset 0. *)
Lemma request_offset_counterexample :
  exists r st',
    littlefs_api_read good_board cfg4096 1048576 0 bytes_00 16 (booted good_board)
      = Done r st' /\
    op_part_off (current_flash_op st') = 0 /\
    op_part_off (current_flash_op st') <> 1048576 * block_size cfg4096 + 0.
Proof.
  vm_compute. do 2 eexists. split; [reflexivity|]. split; [reflexivity|discriminate].
Qed.

(** Claim C4 as stated fails in the same way: erasing block 2^20 of that
    device erases the 4096 bytes at offset 0, not those at b * s = 2^32. *)
Lemma erase_offset_counterexample :
  exists st',
    littlefs_api_erase good_board cfg4096 1048576 (booted good_board)
      = Done 0%Z st' /\
    device_calls (trace st') = [EvPartitionErase 1061191680 0 4096 0] /\
    op_part_off (current_flash_op st') <> 1048576 * block_size cfg4096.
Proof.
  vm_compute. eexists. split; [reflexivity|]. split; [reflexivity|discriminate].
Qed.

(** Claim C1, at a program call whose partition write fails.  The device
    reports ESP_FAIL, the proxy task records LFS_ERR_IO in [flash_op_result],
    and [littlefs_api_prog] returns 0 all the same. *)
Theorem prog_returns_success_on_failed_write :
  exists st',
    littlefs_api_prog bad_flash_board cfg4096 2 10 bytes_AA 16
      (booted bad_flash_board) = Done 0%Z st' /\
    device_calls (trace st')
      = [EvPartitionWrite 1061191680 8202 1073414144 16 (-1)] /\
    flash_op_result st' = LFS_ERR_IO.
Proof.
  vm_compute. eexists. split; [reflexivity|]. split; reflexivity.
Qed.

(** Claim C7, at a call whose scratch allocation fails.  The ensure step
    stores the NULL it was handed and records the requested size; the
    program call then copies into NULL and the read call copies out of it,
    and neither returns LFS_ERR_IO. *)
Theorem allocation_failure_is_not_reported :
  (exists st',
      ensure_flash_proxy_buf_size no_ram_board 16 (booted no_ram_board)
        = Done tt st' /\
      flash_proxy_buf st' = NULL /\ flash_proxy_buf_size st' = 16) /\
  littlefs_api_prog no_ram_board cfg4096 2 10 bytes_AA 16 (booted no_ram_board)
    = Crash /\
  littlefs_api_read no_ram_board cfg4096 2 10 bytes_00 16 (booted no_ram_board)
    = Crash.
Proof.
  vm_compute. split; [|split; reflexivity].
  eexists. split; [reflexivity|]. split; reflexivity.
Qed.

(** ** Further properties of the proxy *)

Section More.
Context {W : Type} (E : Collaborators W).
Implicit Types (st : state W) (c : lfs_config) (p : event -> bool).

Lemma filter_one p (e : event) :
  filter (fun e => p e = true) [e] = if p e then [e] else [].
Proof.
  rewrite filter_cons, filter_nil. destruct (p e); by case_decide.
Qed.

Lemma take_posted st op :
  operation_done_sem st <> NULL ->
  do_xSemaphoreTake E (request_posted op st) = Done tt (after_handoff E op st).
Proof.
  intros Hs. rewrite take_eq.
  cbn [operation_done_sem request_posted add_event set_current_flash_op].
  rewrite (eqb_NULL_false _ Hs). unfold after_handoff. cbn.
  do 2 f_equal. by norm_trace.
Qed.

Lemma take_posted_crash st op :
  operation_done_sem st = NULL ->
  do_xSemaphoreTake E (request_posted op st) = Crash.
Proof.
  intros Hs. rewrite take_eq.
  cbn [operation_done_sem request_posted add_event set_current_flash_op].
  by rewrite Hs.
Qed.

Lemma ensure_frame st size st1 :
  ensure_flash_proxy_buf_size E size st = Done tt st1 ->
  flash_proxy_task_handle st1 = flash_proxy_task_handle st /\
  operation_done_sem st1 = operation_done_sem st /\
  forall p, (forall e, is_alloc_event e = true -> p e = false) ->
            filter (fun e => p e = true) (trace st1)
            = filter (fun e => p e = true) (trace st).
Proof.
  rewrite ensure_eq.
  destruct (flash_proxy_buf st =? NULL);
    [|destruct (flash_proxy_buf_size st <? size)];
    intros [= <-]; cbn; repeat split; try done;
    intros p Hp; rewrite filter_app, filter_one, Hp by done; apply app_nil_r.
Qed.

Lemma ensure_capacity st size st1 :
  scratch_ok st ->
  ensure_flash_proxy_buf_size E size st = Done tt st1 ->
  flash_proxy_buf_size st1 = N.max (flash_proxy_buf_size st) size.
Proof.
  intros Hok. rewrite ensure_eq.
  destruct (flash_proxy_buf st =? NULL) eqn:Hb.
  - apply N.eqb_eq in Hb. destruct Hok as [[_ Hz]|[Hn _]]; [|done].
    cbn in Hz. intros [= <-]. cbn. lia.
  - destruct (flash_proxy_buf_size st <? size) eqn:Hlt; intros [= <-]; cbn.
    + apply N.ltb_lt in Hlt. lia.
    + apply N.ltb_ge in Hlt. lia.
Qed.

Lemma ensure_keeps_pointer st size st1 :
  flash_proxy_buf st <> NULL ->
  ensure_flash_proxy_buf_size E size st = Done tt st1 ->
  flash_proxy_buf st1 = flash_proxy_buf st \/ size <> 0.
Proof.
  intros Hb. rewrite ensure_eq, (eqb_NULL_false _ Hb).
  destruct (flash_proxy_buf_size st <? size) eqn:Hlt; intros [= <-]; [|by left].
  apply N.ltb_lt in Hlt. right. lia.
Qed.

Lemma memcpy_to_frame buffer size st st' :
  memcpy_to_scratch buffer size st = Done tt st' ->
  trace st' = trace st /\ world st' = world st /\
  flash_proxy_buf st' = flash_proxy_buf st /\
  flash_proxy_buf_size st' = flash_proxy_buf_size st.
Proof.
  unfold memcpy_to_scratch.
  destruct (size =? 0); [by intros [= <-]|].
  destruct (flash_proxy_buf st =? NULL); [done|].
  destruct (heap st !! flash_proxy_buf st); [|done].
  destruct (_ && _); [|done]. by intros [= <-].
Qed.

Lemma memcpy_from_shape buffer size st b st' :
  memcpy_from_scratch buffer size st = Done b st' ->
  length b = length buffer /\
  drop (N.to_nat size) b = drop (N.to_nat size) buffer.
Proof.
  unfold memcpy_from_scratch.
  destruct (size =? 0); [by intros [= <- <-]|].
  destruct (flash_proxy_buf st =? NULL); [done|].
  destruct (heap st !! flash_proxy_buf st) as [blk|]; [|done].
  destruct (_ && _) eqn:Hle; [|done].
  apply andb_true_iff in Hle as [H1%Nat.leb_le H2%Nat.leb_le].
  intros [= <- <-]. split.
  - rewrite length_app, length_take, length_drop. lia.
  - rewrite drop_app_length'; [done|]. rewrite length_take. lia.
Qed.

(** *** Returning calls on a task that exists, taken apart *)

Lemma read_inv st c block off buffer size r st' :
  flash_proxy_task_handle st <> NULL ->
  littlefs_api_read E c block off buffer size st = Done r st' ->
  exists st1,
    ensure_flash_proxy_buf_size E size st = Done tt st1 /\
    operation_done_sem st <> NULL /\
    st' = after_handoff E
            (read_request c block off (flash_proxy_buf st1) size) st1 /\
    memcpy_from_scratch buffer size st' = Done r.2 st' /\
    r.1 = 0%Z.
Proof.
  intros Hh. rewrite read_eq, (eqb_NULL_false _ Hh).
  destruct (ensure_flash_proxy_buf_size E size st) as [[] st1|] eqn:Hens; [|done].
  destruct (ensure_frame _ _ _ Hens) as (_ & Hs1 & _).
  destruct (decide (operation_done_sem st = NULL)) as [Hs|Hs].
  { rewrite take_posted_crash by congruence. done. }
  rewrite take_posted by congruence.
  destruct (memcpy_from_scratch buffer size _) as [b st3|] eqn:Hcpy; [|done].
  destruct (memcpy_from_inv _ _ _ _ _ Hcpy) as [-> _].
  intros [= <- <-]. eauto 10.
Qed.

Lemma prog_inv st c block off buffer size r st' :
  flash_proxy_task_handle st <> NULL ->
  littlefs_api_prog E c block off buffer size st = Done r st' ->
  exists st1 st2,
    ensure_flash_proxy_buf_size E size st = Done tt st1 /\
    memcpy_to_scratch buffer size st1 = Done tt st2 /\
    operation_done_sem st <> NULL /\
    st' = after_handoff E
            (write_request c block off (flash_proxy_buf st2) size) st2 /\
    r = 0%Z.
Proof.
  intros Hh. rewrite prog_eq, (eqb_NULL_false _ Hh).
  destruct (ensure_flash_proxy_buf_size E size st) as [[] st1|] eqn:Hens; [|done].
  destruct (ensure_frame _ _ _ Hens) as (_ & Hs1 & _).
  destruct (memcpy_to_scratch buffer size st1) as [[] st2|] eqn:Hcpy; [|done].
  destruct (memcpy_to_inv _ _ _ _ Hcpy) as (_ & _ & Hs2 & _).
  destruct (decide (operation_done_sem st = NULL)) as [Hs|Hs].
  { rewrite take_posted_crash by congruence. done. }
  rewrite take_posted by congruence.
  intros [= <- <-]. eauto 10.
Qed.

Lemma erase_inv st c block r st' :
  flash_proxy_task_handle st <> NULL ->
  littlefs_api_erase E c block st = Done r st' ->
  operation_done_sem st <> NULL /\
  st' = after_handoff E (erase_request c block) st /\
  r = 0%Z.
Proof.
  intros Hh. rewrite erase_eq, (eqb_NULL_false _ Hh).
  destruct (decide (operation_done_sem st = NULL)) as [Hs|Hs].
  { rewrite take_posted_crash by congruence. done. }
  rewrite take_posted by congruence.
  by intros [= <- <-].
Qed.

(** Induction over the reachable states. *)
Lemma reachable_invariant (P : state W -> Prop) :
  (forall w, P (initial_state w)) ->
  (forall k st st', P st -> run_call E k st = Done tt st' -> P st') ->
  forall st, reachable E st -> P st.
Proof.
  intros Hinit Hstep st (w & ks & Hrun).
  assert (Hgen : forall ks s s', P s -> run_calls E ks s = Done tt s' -> P s').
  { clear st Hrun. intros ks0.
    induction ks0 as [|k ks0 IH]; intros s s' Hs; cbn.
    - by intros [= <-].
    - intros ([] & s1 & Hk & Hks)%bind_Done.
      apply (IH s1 s'); [|done]. by apply (Hstep k s s1). }
  by apply (Hgen ks (initial_state w) st).
Qed.


End More.

Section MoreTraces.
Context {W : Type} (E : Collaborators W).
Implicit Types (st : state W) (c : lfs_config) (p : event -> bool).

Lemma device_step_filter p op h (w : W) :
  (forall e, is_device_call e = true -> p e = false) ->
  filter (fun e => p e = true) (device_step E op h w).2 = [].
Proof.
  intros Hp. unfold device_step.
  destruct (op_type op); cbn [snd]; try done; by rewrite filter_one, Hp.
Qed.

Lemma device_step_calls op h (w : W) :
  device_calls (device_step E op h w).2 = (device_step E op h w).2.
Proof.
  unfold device_step, device_calls.
  destruct (op_type op); cbn [snd]; try done; by rewrite filter_one.
Qed.

Lemma device_step_one op h (w : W) :
  op_type op <> FLASH_OP_NONE -> op_type op <> FLASH_OP_INVALID ->
  length (device_step E op h w).2 = 1%nat.
Proof. unfold device_step. by destruct (op_type op). Qed.

Lemma after_handoff_counts op st :
  op_type op <> FLASH_OP_NONE -> op_type op <> FLASH_OP_INVALID ->
  handoff_counts (trace (after_handoff E op st))
  = let '(a, b, c, d, e) := handoff_counts (trace st) in
    (S a, S b, S c, S d, S e).
Proof.
  intros H1 H2. unfold handoff_counts, count_events, device_calls, after_handoff.
  cbn [trace].
  rewrite !filter_app, !length_app.
  rewrite !(device_step_filter _ _ _ _) by (by intros []).
  fold (device_calls (device_step E op (heap st) (world st)).2).
  rewrite device_step_calls, device_step_one by done.
  cbn. repeat case_decide; try done. cbn. repeat f_equal; lia.
Qed.

Lemma start_frame st st' :
  start_flash_proxy_task E st = Done tt st' ->
  current_flash_op st' = current_flash_op st /\
  flash_proxy_buf st' = flash_proxy_buf st /\
  flash_proxy_buf_size st' = flash_proxy_buf_size st /\
  (flash_proxy_task_handle st <> NULL -> st' = st) /\
  forall p, (forall e, is_rtos_create e = true -> p e = false) ->
            filter (fun e => p e = true) (trace st')
            = filter (fun e => p e = true) (trace st).
Proof.
  rewrite start_eq. destruct (flash_proxy_task_handle st =? NULL) eqn:Hh.
  - apply N.eqb_eq in Hh. intros [= <-]. cbn. repeat split; try done.
    intros p Hp. rewrite filter_app, filter_cons, filter_one, !Hp by done.
    rewrite decide_False by done. apply app_nil_r.
  - intros [= <-]. repeat split; done.
Qed.

Lemma ensure_counts st size st1 :
  ensure_flash_proxy_buf_size E size st = Done tt st1 ->
  handoff_counts (trace st1) = handoff_counts (trace st).
Proof.
  intros (_ & _ & Hf)%ensure_frame.
  unfold handoff_counts, count_events, device_calls.
  by rewrite !Hf by (by intros []).
Qed.

Lemma start_counts st st' :
  start_flash_proxy_task E st = Done tt st' ->
  handoff_counts (trace st') = handoff_counts (trace st).
Proof.
  intros (_ & _ & _ & _ & Hf)%start_frame.
  unfold handoff_counts, count_events, device_calls.
  by rewrite !Hf by (by intros []).
Qed.

Lemma after_handoff_rtos op st :
  count_events is_rtos_create (trace (after_handoff E op st))
  = count_events is_rtos_create (trace st).
Proof.
  unfold count_events, after_handoff. cbn [trace].
  rewrite !filter_app, !length_app.
  rewrite device_step_filter by (by intros []).
  cbn. repeat case_decide; try done; try (cbn; lia).
Qed.

(** What a returning call does to the counts and to the RTOS objects. *)
Lemma run_call_counts k st st' :
  run_call E k st = Done tt st' ->
  (flash_proxy_task_handle st = NULL ->
   handoff_counts (trace st') = handoff_counts (trace st)) /\
  (flash_proxy_task_handle st <> NULL ->
   flash_proxy_task_handle st' = flash_proxy_task_handle st /\
   operation_done_sem st' = operation_done_sem st /\
   count_events is_rtos_create (trace st')
   = count_events is_rtos_create (trace st) /\
   handoff_counts (trace st')
   = if is_data_call k
     then let '(a, b, c, d, e) := handoff_counts (trace st) in
          (S a, S b, S c, S d, S e)
     else handoff_counts (trace st)).
Proof.
  destruct k as [|c block off buffer size|c block off buffer size|c block|c];
    cbn [run_call is_data_call]; unfold discard.
  - intros H. split; [intros _; by apply start_counts|].
    intros Hh. apply start_frame in H as (_ & _ & _ & Heq & _).
    by rewrite (Heq Hh).
  - intros (r & s & H & [= <-])%bind_Done. split.
    { intros Hh. revert H. rewrite read_eq, Hh. by intros [= <- <-]. }
    intros Hh.
    apply read_inv in H as (st1 & Hens & _ & -> & _); [|done].
    destruct (ensure_frame E _ _ _ Hens) as (Hh1 & Hs1 & Hf).
    refine (conj Hh1 (conj Hs1 (conj _ _))).
    + rewrite after_handoff_rtos. unfold count_events.
      by rewrite Hf by (by intros []).
    + rewrite after_handoff_counts by done.
      by rewrite (ensure_counts _ _ _ Hens).
  - intros (r & s & H & [= <-])%bind_Done. split.
    { intros Hh. revert H. rewrite prog_eq, Hh. by intros [= <- <-]. }
    intros Hh.
    apply prog_inv in H as (st1 & st2 & Hens & Hcpy & _ & -> & _); [|done].
    destruct (ensure_frame E _ _ _ Hens) as (Hh1 & Hs1 & Hf).
    destruct (memcpy_to_inv _ _ _ _ Hcpy) as (_ & Hh2 & Hs2 & _).
    destruct (memcpy_to_frame _ _ _ _ Hcpy) as (Ht2 & _).
    refine (conj _ (conj _ (conj _ _))).
    + cbn. congruence.
    + cbn. congruence.
    + rewrite after_handoff_rtos, Ht2. unfold count_events.
      by rewrite Hf by (by intros []).
    + rewrite after_handoff_counts by done.
      by rewrite Ht2, (ensure_counts _ _ _ Hens).
  - intros (r & s & H & [= <-])%bind_Done. split.
    { intros Hh. revert H. rewrite erase_eq, Hh. by intros [= <- <-]. }
    intros Hh.
    apply erase_inv in H as (_ & -> & _); [|done].
    refine (conj eq_refl (conj eq_refl (conj _ _))).
    + apply after_handoff_rtos.
    + by rewrite after_handoff_counts.
  - intros (r & s & [= <- <-] & [= <-])%bind_Done. by split.
Qed.

End MoreTraces.

Section Extras.
Context {W : Type} (E : Collaborators W).
Implicit Types (st : state W) (c : lfs_config) (p : event -> bool).

(** X1.  A read that returns leaves the caller's buffer at its length and
    writes to its first [size] bytes only: everything from index [size] on
    is as it was, whatever the device and whether or not the task exists. *)
Theorem read_touches_only_size_bytes st c block off buffer size r st' :
  littlefs_api_read E c block off buffer size st = Done r st' ->
  length r.2 = length buffer /\
  drop (N.to_nat size) r.2 = drop (N.to_nat size) buffer.
Proof.
  destruct (decide (flash_proxy_task_handle st = NULL)) as [Hh|Hh].
  - rewrite read_eq, Hh. by intros [= <- <-].
  - intros (st1 & _ & _ & _ & Hcpy & _)%read_inv; [|done].
    by eapply memcpy_from_shape.
Qed.

(** X2.  After a read or program call of [size] bytes that returns, on a
    task that exists, the recorded capacity is exactly the larger of the
    previous capacity and [size]: the buffer grows to the request and no
    further. *)
Theorem capacity_is_largest_request st c block off buffer size :
  reachable E st ->
  flash_proxy_task_handle st <> NULL ->
  (forall r st',
      littlefs_api_read E c block off buffer size st = Done r st' ->
      flash_proxy_buf_size st' = N.max (flash_proxy_buf_size st) size) /\
  (forall r st',
      littlefs_api_prog E c block off buffer size st = Done r st' ->
      flash_proxy_buf_size st' = N.max (flash_proxy_buf_size st) size).
Proof.
  intros Hr%reachable_scratch_ok Hh. split; intros r st'.
  - intros (st1 & Hens & _ & -> & _)%read_inv; [|done].
    cbn. by eapply ensure_capacity.
  - intros (st1 & st2 & Hens & Hcpy & _ & -> & _)%prog_inv; [|done].
    apply memcpy_to_frame in Hcpy as (_ & _ & _ & Hc). cbn. rewrite Hc.
    by eapply ensure_capacity.
Qed.

Lemma run_call_keeps_pointer k st st' :
  flash_proxy_buf st <> NULL ->
  run_call E k st = Done tt st' ->
  flash_proxy_buf st' <> NULL.
Proof.
  intros Hb.
  destruct k as [|c block off buffer size|c block off buffer size|c block|c];
    cbn [run_call]; unfold discard.
  - rewrite start_eq.
    by destruct (flash_proxy_task_handle st =? NULL); intros [= <-].
  - intros (r & s & H & [= <-])%bind_Done.
    destruct (decide (flash_proxy_task_handle st = NULL)) as [Hh|Hh].
    { revert H. rewrite read_eq, Hh. by intros [= <- <-]. }
    apply read_inv in H as (st1 & Hens & _ & -> & Hcpy & _); [|done].
    apply memcpy_from_inv in Hcpy as [_ [->|Hn]]; [|done]. cbn.
    destruct (ensure_keeps_pointer E _ _ _ Hb Hens) as [->|]; done.
  - intros (r & s & H & [= <-])%bind_Done.
    destruct (decide (flash_proxy_task_handle st = NULL)) as [Hh|Hh].
    { revert H. rewrite prog_eq, Hh. by intros [= <- <-]. }
    apply prog_inv in H as (st1 & st2 & Hens & Hcpy & _ & -> & _); [|done].
    destruct (memcpy_to_frame _ _ _ _ Hcpy) as (_ & _ & Hb2 & _).
    apply memcpy_to_inv in Hcpy as (_ & _ & _ & [->|Hn]); cbn; rewrite Hb2; [|done].
    destruct (ensure_keeps_pointer E _ _ _ Hb Hens) as [->|]; done.
  - intros (r & s & H & [= <-])%bind_Done.
    destruct (decide (flash_proxy_task_handle st = NULL)) as [Hh|Hh].
    { revert H. rewrite erase_eq, Hh. by intros [= <- <-]. }
    by apply erase_inv in H as (_ & -> & _).
  - by intros (r & s & [= <- <-] & [= <-])%bind_Done.
Qed.

(** X3.  Once the scratch buffer has been allocated it is never given up:
    after any sequence of calls that return, [flash_proxy_buf] is still not
    NULL (a growth that fails makes its call copy through NULL instead of
    returning). *)
Theorem scratch_pointer_stays_allocated ks st st' :
  flash_proxy_buf st <> NULL ->
  run_calls E ks st = Done tt st' ->
  flash_proxy_buf st' <> NULL.
Proof.
  revert st. induction ks as [|k ks IH]; intros st Hb; cbn.
  - by intros [= <-].
  - intros ([] & s & Hk & Hks)%bind_Done.
    eapply IH; [|done]. by eapply run_call_keeps_pointer.
Qed.

(** X4.  On a started executor a transfer of zero bytes always returns 0,
    also when the allocator fails: the read leaves the caller's buffer as it
    was. *)
Theorem zero_length_transfers_return st c block off buffer :
  started st ->
  (exists st', littlefs_api_read E c block off buffer 0 st
               = Done (0%Z, buffer) st') /\
  (exists st', littlefs_api_prog E c block off buffer 0 st = Done 0%Z st').
Proof.
  intros [Hh Hs].
  destruct (ensure_spec E st 0) as (st1 & Hens & _ & Hs1 & _).
  rewrite read_eq, prog_eq, (eqb_NULL_false _ Hh), Hens. cbv beta iota.
  split.
  - rewrite take_posted by congruence. by eexists.
  - cbn [memcpy_to_scratch N.eqb]. rewrite take_posted by congruence.
    by eexists.
Qed.


(** X6.  When xTaskCreate fails the start-up hook still returns: the handle
    stays NULL and the semaphore it created stays in [operation_done_sem].
    The next invocation tries again from the beginning, creating a second
    semaphore whose handle replaces the first. *)
Theorem failed_task_creation_is_retried st :
  flash_proxy_task_handle st = NULL ->
  (xTaskCreate E 4096 5 (xSemaphoreCreateBinary E (world st)).2).1 = NULL ->
  exists st' st'',
    start_flash_proxy_task E st = Done tt st' /\
    flash_proxy_task_handle st' = NULL /\
    operation_done_sem st' = (xSemaphoreCreateBinary E (world st)).1 /\
    start_flash_proxy_task E st' = Done tt st'' /\
    operation_done_sem st'' = (xSemaphoreCreateBinary E (world st')).1 /\
    exists task,
      trace st'' = trace st ++
        [EvSemaphoreCreate (operation_done_sem st'); EvTaskCreate 4096 5 NULL;
         EvSemaphoreCreate (operation_done_sem st''); EvTaskCreate 4096 5 task].
Proof.
  intros Hh Ht.
  pose proof (start_eq E st) as H1. rewrite Hh in H1.
  cbn [N.eqb NULL] in H1. cbv zeta in H1. rewrite Ht in H1.
  cbn [N.eqb NULL] in H1.
  match type of H1 with _ = Done tt ?s => set (st' := s) in * end.
  pose proof (start_eq E st') as H2.
  replace (flash_proxy_task_handle st') with NULL in H2 by done.
  cbn [N.eqb NULL] in H2. cbv zeta in H2.
  match type of H2 with _ = Done tt ?s => set (st'' := s) in * end.
  exists st', st''. repeat split; try done.
  eexists. subst st'' st'. cbn. by norm_trace.
Qed.

End Extras.

Section ExtrasTraces.
Context {W : Type} (E : Collaborators W).
Implicit Types (st : state W) (c : lfs_config) (p : event -> bool).

Lemma run_call_device_calls k st st' :
  flash_proxy_task_handle st <> NULL ->
  run_call E k st = Done tt st' ->
  length (device_calls (trace st'))
  = (length (device_calls (trace st)) + if is_data_call k then 1 else 0)%nat.
Proof.
  intros Hh Hk. destruct (run_call_counts E _ _ _ Hk) as [_ Hc].
  destruct (Hc Hh) as (_ & _ & _ & Heq).
  apply (f_equal snd) in Heq. cbn [handoff_counts snd] in Heq. rewrite Heq.
  destruct (is_data_call k); cbn; lia.
Qed.

Lemma run_calls_started ks st st' :
  flash_proxy_task_handle st <> NULL ->
  run_calls E ks st = Done tt st' ->
  flash_proxy_task_handle st' = flash_proxy_task_handle st /\
  operation_done_sem st' = operation_done_sem st /\
  count_events is_rtos_create (trace st')
  = count_events is_rtos_create (trace st) /\
  length (device_calls (trace st'))
  = (length (device_calls (trace st)) + data_calls ks)%nat.
Proof.
  revert st. induction ks as [|k ks IH]; intros st Hh; cbn [run_calls].
  - intros [= <-]. unfold data_calls. cbn. repeat split; lia.
  - intros ([] & s & Hk & Hks)%bind_Done.
    pose proof (run_call_device_calls _ _ _ Hh Hk) as Hd.
    destruct (run_call_counts E _ _ _ Hk) as [_ Hc].
    destruct (Hc Hh) as (Hh1 & Hs1 & Hr1 & _).
    destruct (IH s ltac:(congruence) Hks) as (Hh2 & Hs2 & Hr2 & Hd2).
    repeat split; try congruence.
    rewrite Hd2, Hd. unfold data_calls. rewrite filter_cons.
    destruct (is_data_call k); case_decide; try done; cbn; lia.
Qed.

(** X7.  In every state the program reaches, the trace holds as many
    notifications given as taken, as many semaphore gives as takes, and as
    many of each as device calls: every request posted was served by exactly
    one device call and its completion was consumed, so nothing is pending
    between calls. *)
Theorem handoff_is_balanced st :
  reachable E st ->
  let n := length (device_calls (trace st)) in
  count_events is_notify_give (trace st) = n /\
  count_events is_notify_take (trace st) = n /\
  count_events is_semaphore_give (trace st) = n /\
  count_events is_semaphore_take (trace st) = n.
Proof.
  intros Hr.
  assert (H : exists n, handoff_counts (trace st) = (n, n, n, n, n)).
  { revert st Hr. apply reachable_invariant.
    - intros w. by exists 0%nat.
    - intros k st st' [n Hn] Hk.
      destruct (run_call_counts E _ _ _ Hk) as [H0 H1].
      destruct (decide (flash_proxy_task_handle st = NULL)) as [Hh|Hh].
      + exists n. by rewrite H0.
      + destruct (H1 Hh) as (_ & _ & _ & ->). rewrite Hn.
        destruct (is_data_call k); eauto. }
  destruct H as [n [= H1 H2 H3 H4 H5]]. cbn. by rewrite H5.
Qed.

(** X8.  A read or program call that returns, made once the task handle is
    set, adds exactly one device call to those of the trace: a partition
    read, respectively write, on the partition of the mount, at the wrapped
    offset, through the scratch pointer, of [size] bytes.  [flash_op_result]
    then holds 0 if that call's status was 0 and LFS_ERR_IO otherwise, and
    the value returned is 0. *)
Theorem data_call_reaches_device_once st c block off buffer size :
  flash_proxy_task_handle st <> NULL ->
  let part := partition (context c) in
  let poff := (block * block_size c + off) mod 2 ^ 32 in
  (forall r st',
      littlefs_api_read E c block off buffer size st = Done r st' ->
      exists err,
        device_calls (trace st') = device_calls (trace st) ++
          [EvPartitionRead part poff (flash_proxy_buf st') size err] /\
        flash_op_result st' = (if (err =? 0)%Z then 0%Z else LFS_ERR_IO) /\
        r.1 = 0%Z) /\
  (forall r st',
      littlefs_api_prog E c block off buffer size st = Done r st' ->
      exists err,
        device_calls (trace st') = device_calls (trace st) ++
          [EvPartitionWrite part poff (flash_proxy_buf st') size err] /\
        flash_op_result st' = (if (err =? 0)%Z then 0%Z else LFS_ERR_IO) /\
        r = 0%Z).
Proof.
  intros Hh part poff. split; intros r st'.
  - intros (st1 & Hens & _ & -> & _ & Hr)%read_inv; [|done].
    destruct (ensure_frame E _ _ _ Hens) as (_ & _ & Hf).
    eexists. unfold device_calls, after_handoff. cbn [trace flash_op_result flash_proxy_buf].
    rewrite !filter_app, Hf by (by intros []).
    unfold device_step. cbn [read_request op_type op_partition op_part_off op_buffer op_size fst snd].
    rewrite !filter_cons, filter_nil, wrap32_add_l.
    repeat case_decide; try done.
  - intros (st1 & st2 & Hens & Hcpy & _ & -> & Hr)%prog_inv; [|done].
    destruct (ensure_frame E _ _ _ Hens) as (_ & _ & Hf).
    destruct (memcpy_to_frame _ _ _ _ Hcpy) as (Ht2 & _).
    eexists. unfold device_calls, after_handoff. cbn [trace flash_op_result flash_proxy_buf].
    rewrite !filter_app, Ht2, Hf by (by intros []).
    unfold device_step. cbn [write_request op_type op_partition op_part_off op_buffer op_size fst snd].
    rewrite !filter_cons, filter_nil, wrap32_add_l.
    repeat case_decide; try done.
Qed.

(** X9.  From a state where the task handle is set, a sequence of calls that
    return makes exactly one device call per read, program or erase call of
    the sequence, and none for start and sync: requests are neither
    coalesced nor skipped. *)
Theorem one_device_call_per_data_call ks st st' :
  flash_proxy_task_handle st <> NULL ->
  run_calls E ks st = Done tt st' ->
  length (device_calls (trace st'))
  = (length (device_calls (trace st)) + data_calls ks)%nat.
Proof.
  intros Hh Hrun. by destruct (run_calls_started _ _ _ Hh Hrun) as (_ & _ & _ & H).
Qed.

(** X10.  Once the task handle is set, no sequence of calls that return
    replaces the task handle or the semaphore, and none creates a further
    RTOS object. *)
Theorem executor_objects_are_stable ks st st' :
  flash_proxy_task_handle st <> NULL ->
  run_calls E ks st = Done tt st' ->
  flash_proxy_task_handle st' = flash_proxy_task_handle st /\
  operation_done_sem st' = operation_done_sem st /\
  count_events is_rtos_create (trace st')
  = count_events is_rtos_create (trace st).
Proof.
  intros Hh Hrun.
  by destruct (run_calls_started _ _ _ Hh Hrun) as (H1 & H2 & H3 & _).
Qed.

(** X11.  Between calls the request slot is never of kind FLASH_OP_INVALID;
    it is of kind FLASH_OP_NONE only while no device call was ever made; a
    read or write request points at the current scratch buffer and asks for
    no more bytes than its recorded capacity; an erase request has no
    buffer. *)
Theorem request_slot_is_well_formed st :
  reachable E st ->
  let op := current_flash_op st in
  match op_type op with
  | FLASH_OP_NONE => device_calls (trace st) = []
  | FLASH_OP_READ | FLASH_OP_WRITE =>
      op_buffer op = flash_proxy_buf st /\ op_size op <= flash_proxy_buf_size st
  | FLASH_OP_ERASE => op_buffer op = NULL
  | FLASH_OP_INVALID => False
  end.
Proof.
  revert st. apply (reachable_invariant E request_slot_ok); [done|].
  intros k st st' Hok.
  destruct k as [|c block off buffer size|c block off buffer size|c block|c];
    cbn [run_call]; unfold discard.
  - intros (Hop & Hb & Hc & _ & Hf)%start_frame.
    unfold request_slot_ok, device_calls in *.
    rewrite Hop, Hb, Hc, Hf by (by intros []). done.
  - intros (r & s & H & [= <-])%bind_Done.
    destruct (decide (flash_proxy_task_handle st = NULL)) as [Hh|Hh].
    { revert H. rewrite read_eq, Hh. by intros [= <- <-]. }
    apply read_inv in H as (st1 & Hens & _ & -> & _); [|done].
    destruct (ensure_spec E st size) as (s1 & Hens' & _ & _ & _ & _ & Hle & _).
    rewrite Hens in Hens'. injection Hens' as <-.
    by split.
  - intros (r & s & H & [= <-])%bind_Done.
    destruct (decide (flash_proxy_task_handle st = NULL)) as [Hh|Hh].
    { revert H. rewrite prog_eq, Hh. by intros [= <- <-]. }
    apply prog_inv in H as (st1 & st2 & Hens & Hcpy & _ & -> & _); [|done].
    destruct (ensure_spec E st size) as (s1 & Hens' & _ & _ & _ & _ & Hle & _).
    rewrite Hens in Hens'. injection Hens' as <-.
    destruct (memcpy_to_frame _ _ _ _ Hcpy) as (_ & _ & _ & Hc).
    split; [done|]. cbn. by rewrite Hc.
  - intros (r & s & H & [= <-])%bind_Done.
    destruct (decide (flash_proxy_task_handle st = NULL)) as [Hh|Hh].
    { revert H. rewrite erase_eq, Hh. by intros [= <- <-]. }
    by apply erase_inv in H as (_ & -> & _).
  - by intros (r & s & [= <- <-] & [= <-])%bind_Done.
Qed.

End ExtrasTraces.

Section ExtrasData.
Context {W : Type} (E : Collaborators W).
Implicit Types (st : state W) (c : lfs_config).

(** X12.  A program call hands the device exactly the caller's bytes: on a
    started executor whose scratch buffer can be served, the call returns 0,
    the world is the one esp_partition_write leaves when given the first
    [size] bytes of the caller's buffer at the wrapped offset, in the world
    the allocation left, and [flash_op_result] reflects that write's
    status. *)
Theorem prog_hands_device_callers_bytes st c block off buffer size :
  reachable E st ->
  started st ->
  allocator_serves E size (world st) ->
  (N.to_nat size <= length buffer)%nat ->
  exists st1 st',
    ensure_flash_proxy_buf_size E size st = Done tt st1 /\
    littlefs_api_prog E c block off buffer size st = Done 0%Z st' /\
    let r := esp_partition_write E (partition (context c))
               ((block * block_size c + off) mod 2 ^ 32)
               (take (N.to_nat size) buffer) size (world st1) in
    world st' = r.2 /\
    flash_op_result st' = (if (r.1 =? 0)%Z then 0%Z else LFS_ERR_IO).
Proof.
  intros Hr%reachable_scratch_ok [Hh Hs] Ha Hlen.
  destruct (ensure_serves E st size Hr Ha)
    as (sa & blk & Hens & Hha & Hsa & Hba & Hcap & Hblk & Hlb).
  destruct (memcpy_to_spec sa buffer size blk Hba Hblk Hlb Hlen)
    as (sb & blk2 & Hcpy & Hhb & Hsb & Hbb & Hcb & Hwb & Hblk2 & Hlen2 & Htake).
  exists sa. eexists. split; [done|].
  rewrite prog_eq, (eqb_NULL_false _ Hh), Hens. cbv beta iota.
  rewrite Hcpy. cbv beta iota.
  rewrite take_posted by congruence.
  split; [reflexivity|].
  unfold after_handoff, device_step.
  cbn [world flash_op_result write_request op_type op_partition op_part_off
       op_buffer op_size fst snd].
  unfold load_bytes. rewrite Hbb, Hblk2, Htake, Hwb, wrap32_add_l. done.
Qed.

(** X13.  A read call delivers what the device stored, whatever status the
    device reported: on a started executor whose scratch buffer can be
    served and a device that stores [size] bytes per read, the call returns
    0 and the caller's buffer starts with the bytes esp_partition_read
    produced for the wrapped offset. *)
Theorem read_delivers_what_the_device_stored st c block off buffer size :
  reachable E st ->
  started st ->
  allocator_serves E size (world st) ->
  reads_fill E ->
  (N.to_nat size <= length buffer)%nat ->
  exists st1 st',
    ensure_flash_proxy_buf_size E size st = Done tt st1 /\
    let data := (esp_partition_read E (partition (context c))
                   ((block * block_size c + off) mod 2 ^ 32)
                   (flash_proxy_buf st1) size (world st1)).1.2 in
    littlefs_api_read E c block off buffer size st
      = Done (0%Z, data ++ drop (N.to_nat size) buffer) st'.
Proof.
  intros Hr%reachable_scratch_ok [Hh Hs] Ha Hfill Hlen.
  destruct (ensure_serves E st size Hr Ha)
    as (sa & blk & Hens & Hha & Hsa & Hba & Hcap & Hblk & Hlb).
  exists sa. eexists. split; [done|]. cbv zeta.
  rewrite <- wrap32_add_l.
  set (part := partition (context c)).
  set (poff := wrap32 (wrap32 (block * block_size c) + off)).
  set (r := esp_partition_read E part poff (flash_proxy_buf sa) size (world sa)).
  assert (Hdl : length r.1.2 = N.to_nat size) by by apply Hfill.
  rewrite read_eq, (eqb_NULL_false _ Hh), Hens. cbv beta iota.
  rewrite take_posted by congruence.
  set (sb := after_handoff E _ sa).
  assert (Hb : heap sb !! flash_proxy_buf sb
               = Some (r.1.2 ++ drop (N.to_nat size) blk)).
  { unfold sb, after_handoff, device_step.
    cbn [heap flash_proxy_buf read_request op_type op_partition op_part_off
         op_buffer op_size fst snd].
    fold part poff r. rewrite take_ge by lia.
    unfold store_bytes. rewrite Hblk, Hdl.
    assert ((N.to_nat size <=? length blk)%nat = true) as ->
      by by apply Nat.leb_le.
    apply lookup_insert_eq. }
  rewrite (memcpy_from_spec sb buffer size _ Hba Hb).
  - rewrite <- Hdl at 1. by rewrite take_app_length.
  - rewrite length_app. lia.
  - done.
Qed.

(** X14.  After a program call, a read from a device that stores nothing
    (a failed read) still returns 0 and hands the caller the bytes of that
    earlier program call, whatever block and offset the read names: the
    stale scratch buffer is copied out. *)
Theorem failed_read_returns_programmed_bytes
        st c block off c' block' off' (data out : list byte) :
  let L := N.of_nat (length data) in
  reachable E st ->
  started st ->
  allocator_serves E L (world st) ->
  reads_store_nothing E ->
  (length data <= length out)%nat ->
  exists st1 st2,
    littlefs_api_prog E c block off data L st = Done 0%Z st1 /\
    littlefs_api_read E c' block' off' out L st1
      = Done (0%Z, data ++ drop (length data) out) st2.
Proof.
  intros L Hr%reachable_scratch_ok [Hh Hs] Ha Hnone Hout.
  assert (HL : N.to_nat L = length data) by (unfold L; lia).
  destruct (ensure_serves E st L Hr Ha)
    as (sa & blk & Hens & Hha & Hsa & Hba & Hcap & Hblk & Hlb).
  destruct (memcpy_to_spec sa data L blk Hba Hblk Hlb ltac:(lia))
    as (sb & blk2 & Hcpy & Hhb & Hsb & Hbb & Hcb & Hwb & Hblk2 & Hlen2 & Htake).
  eexists. eexists. split.
  { rewrite prog_eq, (eqb_NULL_false _ Hh), Hens. cbv beta iota.
    rewrite Hcpy. cbv beta iota. by rewrite take_posted by congruence. }
  set (sc := after_handoff E _ sb).
  assert (Hhc : flash_proxy_task_handle sc <> NULL) by (cbn; congruence).
  assert (Hsc : operation_done_sem sc <> NULL) by (cbn; congruence).
  assert (Hbc : flash_proxy_buf sc <> NULL) by (cbn; congruence).
  assert (Hcc : L <= flash_proxy_buf_size sc) by (cbn; rewrite Hcb; lia).
  assert (Hheap : heap sc = heap sb) by done.
  rewrite read_eq, (eqb_NULL_false _ Hhc), (ensure_noop E sc L Hbc Hcc).
  cbv beta iota. rewrite take_posted by done.
  set (sd := after_handoff E _ sc).
  assert (Hb : heap sd !! flash_proxy_buf sd = Some blk2).
  { unfold sd, after_handoff, device_step.
    cbn [heap flash_proxy_buf read_request op_type op_partition op_part_off
         op_buffer op_size fst snd].
    rewrite Hnone, take_nil. unfold store_bytes.
    rewrite Hheap. change (flash_proxy_buf sc) with (flash_proxy_buf sb).
    rewrite Hbb, Hblk2. cbn. apply lookup_insert_eq. }
  rewrite (memcpy_from_spec sd out L blk2 Hbc Hb) by lia.
  by rewrite Htake, HL, firstn_all.
Qed.

End ExtrasData.

(** ** The further properties on the simulated board *)

Lemma flash_read_length off n (f : gmap N byte) : length (flash_read off n f) = n.
Proof.
  revert off. induction n as [|n IH]; intros off; [done|]. cbn. by rewrite IH.
Qed.

Lemma good_board_reads_fill : reads_fill good_board.
Proof.
  intros part off dst size w Hdst. cbn. rewrite (eqb_NULL_false _ Hdst). cbn.
  apply flash_read_length.
Qed.

Lemma deaf_board_reads_store_nothing : reads_store_nothing deaf_board.
Proof. by intros part off dst size w. Qed.

Lemma good_board_serves_16 E :
  heap_caps_malloc E = heap_caps_malloc good_board ->
  heap_caps_realloc E = heap_caps_realloc good_board ->
  world (booted E) = world (booted good_board) ->
  allocator_serves E 16 (world (booted E)).
Proof.
  intros Hm Hr Hw. unfold allocator_serves. rewrite Hm, Hr, Hw.
  split; [vm_compute; discriminate|intros old; vm_compute; discriminate].
Qed.

Lemma worked_reachable :
  reachable good_board
    (after_calls good_board
       [CallStart; CallProg cfg4096 2 10 bytes_AA 16;
        CallRead cfg4096 2 10 bytes_00 8; CallErase cfg32 5]
       (initial_state sim_boot)).
Proof.
  exists sim_boot,
    [CallStart; CallProg cfg4096 2 10 bytes_AA 16;
     CallRead cfg4096 2 10 bytes_00 8; CallErase cfg32 5].
  vm_compute. reflexivity.
Qed.

Lemma read_touches_only_size_bytes_witness :
  exists r st',
    littlefs_api_read good_board cfg4096 2 10 (bytes_00 ++ bytes_AA) 16
      (booted good_board) = Done r st' /\
    length r.2 = 32%nat /\
    drop 16 r.2 = bytes_AA.
Proof.
  destruct (littlefs_api_read good_board cfg4096 2 10 (bytes_00 ++ bytes_AA) 16
              (booted good_board)) as [r st'|] eqn:Hrun;
    [|vm_compute in Hrun; discriminate].
  exists r, st'. split; [reflexivity|].
  exact (read_touches_only_size_bytes good_board _ _ _ _ _ _ _ _ Hrun).
Defined.

Lemma capacity_is_largest_request_witness :
  exists r st',
    littlefs_api_read good_board cfg4096 2 10 bytes_00 16 (booted good_board)
      = Done r st' /\
    flash_proxy_buf_size st' = 16.
Proof.
  destruct (littlefs_api_read good_board cfg4096 2 10 bytes_00 16
              (booted good_board)) as [r st'|] eqn:Hrun;
    [|vm_compute in Hrun; discriminate].
  exists r, st'. split; [reflexivity|].
  refine (proj1 (capacity_is_largest_request good_board (booted good_board)
                   cfg4096 2 10 bytes_00 16 (booted_reachable good_board) _)
            r st' Hrun).
  vm_compute. discriminate.
Defined.

Lemma scratch_pointer_stays_allocated_witness :
  let st := after_calls good_board [CallProg cfg4096 2 10 bytes_AA 16]
              (booted good_board) in
  let ks := [CallRead cfg4096 2 10 bytes_00 8; CallErase cfg32 5;
             CallProg cfg4096 0 0 (bytes_AA ++ bytes_AA) 32] in
  flash_proxy_buf st <> NULL /\
  flash_proxy_buf (after_calls good_board ks st) <> NULL.
Proof.
  intros st ks.
  assert (H : flash_proxy_buf st <> NULL) by (vm_compute; discriminate).
  split; [exact H|].
  apply (scratch_pointer_stays_allocated good_board ks st); [exact H|].
  vm_compute. reflexivity.
Defined.

Lemma zero_length_transfers_return_witness :
  started (booted no_ram_board) /\
  exists st', littlefs_api_read no_ram_board cfg4096 2 10 bytes_00 0
                (booted no_ram_board) = Done (0%Z, bytes_00) st'.
Proof.
  assert (H : started (booted no_ram_board))
    by (split; vm_compute; discriminate).
  split; [exact H|].
  exact (proj1 (zero_length_transfers_return no_ram_board (booted no_ram_board)
                  cfg4096 2 10 bytes_00 H)).
Defined.

Lemma failed_task_creation_is_retried_witness :
  exists st' st'',
    start_flash_proxy_task no_task_board (initial_state sim_boot) = Done tt st' /\
    flash_proxy_task_handle st' = NULL /\
    operation_done_sem st' = 1 /\
    start_flash_proxy_task no_task_board st' = Done tt st'' /\
    operation_done_sem st'' = 2.
Proof.
  destruct (failed_task_creation_is_retried no_task_board (initial_state sim_boot)
              eq_refl eq_refl)
    as (st' & st'' & H1 & H2 & H3 & H4 & H5 & _).
  exists st', st''. repeat split; try assumption.
  rewrite H5. revert H1. vm_compute. by intros [= <-].
Defined.

Lemma handoff_is_balanced_witness :
  let st := after_calls good_board
              [CallStart; CallProg cfg4096 2 10 bytes_AA 16;
               CallRead cfg4096 2 10 bytes_00 8; CallErase cfg32 5]
              (initial_state sim_boot) in
  let n := length (device_calls (trace st)) in
  count_events is_notify_give (trace st) = n /\
  count_events is_notify_take (trace st) = n /\
  count_events is_semaphore_give (trace st) = n /\
  count_events is_semaphore_take (trace st) = n.
Proof.
  exact (handoff_is_balanced good_board _ worked_reachable).
Defined.

Lemma data_call_reaches_device_once_witness :
  exists r st',
    littlefs_api_prog bad_flash_board cfg4096 2 10 bytes_AA 16
      (booted bad_flash_board) = Done r st' /\
    exists err,
      device_calls (trace st')
      = [EvPartitionWrite 1061191680 8202 (flash_proxy_buf st') 16 err] /\
      flash_op_result st' = (if (err =? 0)%Z then 0%Z else LFS_ERR_IO) /\
      r = 0%Z.
Proof.
  destruct (littlefs_api_prog bad_flash_board cfg4096 2 10 bytes_AA 16
              (booted bad_flash_board)) as [r st'|] eqn:Hrun;
    [|vm_compute in Hrun; discriminate].
  exists r, st'. split; [reflexivity|].
  refine (proj2 (data_call_reaches_device_once bad_flash_board
                   (booted bad_flash_board) cfg4096 2 10 bytes_AA 16 _)
            r st' Hrun).
  vm_compute. discriminate.
Defined.

Lemma one_device_call_per_data_call_witness :
  let ks := [CallProg cfg4096 2 10 bytes_AA 16; CallSync cfg4096; CallStart;
             CallRead cfg4096 2 10 bytes_00 8; CallErase cfg32 5] in
  length (device_calls (trace (after_calls good_board ks (booted good_board))))
  = 3%nat.
Proof.
  intros ks.
  apply (one_device_call_per_data_call good_board ks (booted good_board)).
  - vm_compute. discriminate.
  - vm_compute. reflexivity.
Defined.

Lemma executor_objects_are_stable_witness :
  let ks := [CallProg cfg4096 2 10 bytes_AA 16; CallStart; CallStart;
             CallErase cfg32 5] in
  let st' := after_calls good_board ks (booted good_board) in
  flash_proxy_task_handle st' = 2 /\
  operation_done_sem st' = 1 /\
  count_events is_rtos_create (trace st') = 2%nat.
Proof.
  intros ks st'.
  apply (executor_objects_are_stable good_board ks (booted good_board)).
  - vm_compute. discriminate.
  - vm_compute. reflexivity.
Defined.

Lemma request_slot_is_well_formed_witness :
  let st := after_calls good_board
              [CallStart; CallProg cfg4096 2 10 bytes_AA 16;
               CallRead cfg4096 2 10 bytes_00 8; CallErase cfg32 5]
              (initial_state sim_boot) in
  let op := current_flash_op st in
  match op_type op with
  | FLASH_OP_NONE => device_calls (trace st) = []
  | FLASH_OP_READ | FLASH_OP_WRITE =>
      op_buffer op = flash_proxy_buf st /\ op_size op <= flash_proxy_buf_size st
  | FLASH_OP_ERASE => op_buffer op = NULL
  | FLASH_OP_INVALID => False
  end.
Proof.
  exact (request_slot_is_well_formed good_board _ worked_reachable).
Defined.

Lemma prog_hands_device_callers_bytes_witness :
  exists st',
    littlefs_api_prog bad_flash_board cfg4096 2 10 bytes_AA 16
      (booted bad_flash_board) = Done 0%Z st' /\
    flash_op_result st' = LFS_ERR_IO.
Proof.
  destruct (prog_hands_device_callers_bytes bad_flash_board
              (booted bad_flash_board) cfg4096 2 10 bytes_AA 16)
    as (st1 & st' & _ & Hrun & _ & Hres).
  - apply booted_reachable.
  - split; vm_compute; discriminate.
  - by apply good_board_serves_16.
  - vm_compute. lia.
  - exists st'. split; [exact Hrun|]. rewrite Hres. reflexivity.
Defined.

Lemma read_delivers_what_the_device_stored_witness :
  exists st',
    littlefs_api_read good_board cfg4096 2 10 bytes_00 16 (booted good_board)
      = Done (0%Z, replicate 16 Byte.xff) st'.
Proof.
  destruct (read_delivers_what_the_device_stored good_board
              (booted good_board) cfg4096 2 10 bytes_00 16)
    as (st1 & st' & Hens & Hrun).
  - apply booted_reachable.
  - apply booted_started.
  - by apply good_board_serves_16.
  - apply good_board_reads_fill.
  - vm_compute. lia.
  - exists st'. rewrite Hrun. revert Hens. vm_compute. by intros [= <-].
Defined.

Lemma failed_read_returns_programmed_bytes_witness :
  exists st1 st2,
    littlefs_api_prog deaf_board cfg4096 2 10 bytes_AA 16 (booted deaf_board)
      = Done 0%Z st1 /\
    littlefs_api_read deaf_board cfg4096 7 0 bytes_00 16 st1
      = Done (0%Z, bytes_AA) st2.
Proof.
  apply (failed_read_returns_programmed_bytes deaf_board (booted deaf_board)
           cfg4096 2 10 cfg4096 7 0 bytes_AA bytes_00).
  - apply booted_reachable.
  - split; vm_compute; discriminate.
  - by apply good_board_serves_16.
  - apply deaf_board_reads_store_nothing.
  - vm_compute. lia.
Defined.
